(** * Verification of [send_mails.py]: a Google-Sheets driven job-application mailer

    The development is a shallow embedding of [src/send_mails.py].  Pure helpers
    ([normalize_key], [select_resume], [select_cover_letter], ...) become Rocq
    functions over an explicit file-system value; effectful code (SMTP, sheet
    write-back, sleeping, the side-channel log) runs in a small state-and-error
    monad over a [World] that records an event trace.

    Strings are Rocq [string]s (sequences of bytes); the Python case mappings
    and the whitespace class are modelled on the ASCII range. *)

From Stdlib Require Import ZArith Ascii String List Bool Lia.
From stdpp Require Import base option gmap strings list fin_maps.

Local Open Scope string_scope.
Local Open Scope Z_scope.

(* ===================================================================== *)
(** ** Python built-ins used by the script *)
(* ===================================================================== *)

Module Py.

Definition code (c : ascii) : nat := nat_of_ascii c.

Definition between (lo hi n : nat) : bool := (lo <=? n)%nat && (n <=? hi)%nat.

(** [str.isspace] on one character: TAB..CR, FS..US and SPACE. *)
Definition isspace (c : ascii) : bool :=
  between 9 13 (code c) || between 28 32 (code c).

Definition lower_char (c : ascii) : ascii :=
  if between 65 90 (code c) then ascii_of_nat (code c + 32) else c.

Definition upper_char (c : ascii) : ascii :=
  if between 97 122 (code c) then ascii_of_nat (code c - 32) else c.

Fixpoint smap (f : ascii -> ascii) (s : string) : string :=
  match s with
  | EmptyString => EmptyString
  | String c s' => String (f c) (smap f s')
  end.

(** [s.lower()] and [s.upper()] *)
Definition lower (s : string) : string := smap lower_char s.
Definition upper (s : string) : string := smap upper_char s.

(** Truthiness of a string: [if s:] *)
Definition truthy (s : string) : bool :=
  match s with EmptyString => false | _ => true end.

Fixpoint lstrip (s : string) : string :=
  match s with
  | EmptyString => EmptyString
  | String c s' => if isspace c then lstrip s' else s
  end.

Fixpoint rstrip (s : string) : string :=
  match s with
  | EmptyString => EmptyString
  | String c s' =>
      let r := rstrip s' in
      if isspace c && negb (truthy r) then EmptyString else String c r
  end.

(** [s.strip()] *)
Definition strip (s : string) : string := rstrip (lstrip s).

(** [s.split()]: split on runs of whitespace, no empty words. *)
Fixpoint split_from (cur : string) (s : string) : list string :=
  match s with
  | EmptyString => if truthy cur then [cur] else []
  | String c s' =>
      if isspace c
      then (if truthy cur then cur :: split_from EmptyString s'
            else split_from EmptyString s')
      else split_from (cur ++ String c EmptyString) s'
  end.

Definition split (s : string) : list string := split_from EmptyString s.

(** [sep.join(words)] *)
Fixpoint join (sep : string) (ws : list string) : string :=
  match ws with
  | [] => EmptyString
  | [w] => w
  | w :: ws' => w ++ sep ++ join sep ws'
  end.

(** [s.startswith(p)] is Stdlib's [prefix p s]. *)
Definition startswith (s p : string) : bool := String.prefix p s.

Fixpoint drop (n : nat) (s : string) : string :=
  match n, s with
  | O, _ => s
  | S _, EmptyString => EmptyString
  | S n', String _ s' => drop n' s'
  end.

Definition take (n : nat) (s : string) : string := String.substring 0 n s.

(** [s.endswith(p)] *)
Definition endswith (s p : string) : bool :=
  (String.length p <=? String.length s)%nat &&
  String.eqb (drop (String.length s - String.length p) s) p.

(** [s.replace(old, new)] for a non-empty [old]: leftmost, non-overlapping
    occurrences.  [skip] counts the characters of a match still to be dropped. *)
Fixpoint replace_from (old new : string) (skip : nat) (s : string) : string :=
  match s with
  | EmptyString => EmptyString
  | String c s' =>
      match skip with
      | S k => replace_from old new k s'
      | O =>
          if String.prefix old s
          then new ++ replace_from old new (String.length old - 1) s'
          else String c (replace_from old new O s')
      end
  end.

Definition replace (s old new : string) : string := replace_from old new O s.

(** [s.rfind(ch)] for a one-character needle; -1 when absent. *)
Fixpoint rfind_from (ch : ascii) (i : Z) (found : Z) (s : string) : Z :=
  match s with
  | EmptyString => found
  | String c s' =>
      rfind_from ch (i + 1) (if Ascii.eqb c ch then i else found) s'
  end.

Definition rfind (s : string) (ch : ascii) : Z := rfind_from ch 0 (-1) s.

(** One character [s[i:i+1]] (empty when out of range). *)
Definition char_at (s : string) (i : Z) : string :=
  if i <? 0 then EmptyString else String.substring (Z.to_nat i) 1 s.

(** [genericpath._splitext(p, '/', None, '.')]: the [while] loop skips the
    leading dots of the last path component; it makes at most
    [dotIndex - filenameIndex] iterations, which is the fuel given below. *)
Fixpoint splitext_loop (fuel : nat) (p : string) (filenameIndex dotIndex : Z)
  : string * string :=
  match fuel with
  | O => (p, EmptyString)
  | S fuel' =>
      if filenameIndex <? dotIndex then
        if negb (String.eqb (char_at p filenameIndex) ".")
        then (take (Z.to_nat dotIndex) p, drop (Z.to_nat dotIndex) p)
        else splitext_loop fuel' p (filenameIndex + 1) dotIndex
      else (p, EmptyString)
  end.

Definition splitext (p : string) : string * string :=
  let sepIndex := rfind p "/" in
  let dotIndex := rfind p "." in
  if sepIndex <? dotIndex
  then splitext_loop (S (String.length p)) p (sepIndex + 1) dotIndex
  else (p, EmptyString).

(** [posixpath.join(a, b)] *)
Definition path_join (a b : string) : string :=
  if startswith b "/" then b
  else if negb (truthy a) || endswith a "/" then a ++ b
  else a ++ "/" ++ b.

(** [posixpath.basename(p)] *)
Definition basename (p : string) : string :=
  drop (Z.to_nat (rfind p "/" + 1)) p.

(** [s.split(sep, 1)] unpacked into two names: [None] stands for the
    [ValueError] raised when [sep] does not occur. *)
Fixpoint split_once (sep : ascii) (s : string) : option (string * string) :=
  match s with
  | EmptyString => None
  | String c s' =>
      if Ascii.eqb c sep then Some (EmptyString, s')
      else match split_once sep s' with
           | Some (a, b) => Some (String c a, b)
           | None => None
           end
  end.

Definition nl : string := String (ascii_of_nat 10) EmptyString.

End Py.

(* ===================================================================== *)
(** ** Exceptions and results *)
(* ===================================================================== *)

(** The exception classes the script can meet.  All of them derive from
    Python's [Exception]; [EmailSyntaxError] and [EmailUndeliverableError]
    derive from [EmailNotValidError] in the [email_validator] package, and
    [FileNotFoundError], [IsADirectoryError], [PermissionError] from [OSError]. *)
Inductive exn : Type :=
| EmailSyntaxError
| EmailUndeliverableError
| FileNotFoundError (msg : string)
| IsADirectoryError (path : string)
| PermissionError (path : string)
| RuntimeError (msg : string)
| ValueError (msg : string)
| HttpError
| SMTPError
| OtherError (msg : string).

(** [isinstance(e, EmailNotValidError)] *)
Definition is_EmailNotValidError (e : exn) : bool :=
  match e with
  | EmailSyntaxError | EmailUndeliverableError => true
  | _ => false
  end.


Inductive result (A : Type) : Type :=
| Ok (a : A)
| Raise (e : exn).
Arguments Ok {A} a.
Arguments Raise {A} e.


(* ===================================================================== *)
(** ** The local file system *)
(* ===================================================================== *)

(** What a path refers to: a directory with its entries (in [os.listdir]
    order) or a regular file with its bytes; [content = None] is a file that
    exists but cannot be read. *)
Inductive node : Type :=
| Dir (entries : list string)
| File (content : option string).

Definition filesystem : Type := string -> option node.

Section FileSystem.
Variable fs : filesystem.

(** [os.path.isfile] *)
Definition isfile (p : string) : bool :=
  match fs p with Some (File _) => true | _ => false end.

(** [os.path.isdir] *)
Definition isdir (p : string) : bool :=
  match fs p with Some (Dir _) => true | _ => false end.

(** [os.listdir]; only called under an [isdir] guard. *)
Definition listdir (p : string) : list string :=
  match fs p with Some (Dir es) => es | _ => [] end.

(** [open(p, ...).read()] *)
Definition read_file (p : string) : result string :=
  match fs p with
  | None => Raise (FileNotFoundError p)
  | Some (Dir _) => Raise (IsADirectoryError p)
  | Some (File None) => Raise (PermissionError p)
  | Some (File (Some data)) => Ok data
  end.
End FileSystem.

(* ===================================================================== *)
(** ** Configuration *)
(* ===================================================================== *)

(** The entries of [CONFIG] that come from the environment. *)
Record Config : Type := {
  resumes_folder : string;
  default_resume : string;
  smtp_host : string;
  smtp_port : Z;
  smtp_use_ssl : bool;
  smtp_username : string;
  smtp_password : string;        (* os.environ.get(CONFIG["smtp_password_envvar"], "") *)
  sender_name : string;
  sender_email : string;
  max_retries : Z;
  retry_delay_seconds : Z;
  where_found : string;
}.

(** [CONFIG["resume_map"]] and [CONFIG["cover_letter_map"]], in source order. *)
Definition CONFIG_resume_map : list (string * string) :=
  [ ("backend developer", "resumes/Sahil_Bhanushali-M.pdf");
    ("frontend developer", "resumes/Sahil_bhanushali_Resume.pdf");
    ("mern stack developer", "resumes/fullstack_resume.pdf") ].

Definition CONFIG_cover_letter_map : list (string * string) :=
  [ ("backend developer", "cover_letters/backend_backenddev.pdf");
    ("frontend developer", "cover_letters/frontend_cover.pdf");
    ("mern stack developer", "cover_letters/mern_cover.pdf") ].

Definition CONFIG_default_cover_letter_txt : string :=
  "cover_letters/default_cover.txt".

(** [(s or "").strip().lower()] *)
Definition normalize_key (s : string) : string :=
  Py.lower (Py.strip (if Py.truthy s then s else "")).

(** [{normalize_key(k): v for k, v in items}]: a later item overrides. *)
Definition normalized_map (items : list (string * string)) : gmap string string :=
  foldl (fun m kv => <[normalize_key kv.1 := kv.2]> m) ∅ items.

Definition RESUME_MAP : gmap string string := normalized_map CONFIG_resume_map.
Definition COVER_LETTER_MAP : gmap string string := normalized_map CONFIG_cover_letter_map.

(* ===================================================================== *)
(** ** Email validation *)
(* ===================================================================== *)

(** The [email_validator] package is an external dependency.  Its contract is
    taken as a parameter: a syntax check that yields the normalized address,
    and a deliverability (DNS) check that runs only after the syntax check
    passed and only when asked for. *)
Inductive deliverability : Type :=
| Deliverable
| Undeliverable             (* the package raises EmailUndeliverableError *)
| CheckCrashed (msg : string). (* any error outside the package's own classes *)

Record EmailValidator : Type := {
  ev_syntax : string -> option string;
  ev_deliverability : string -> deliverability;
}.

Section Validation.
Variable ev : EmailValidator.

(** [email_validator.validate_email(address, check_deliverability=...)],
    returning the normalized address [v["email"]]. *)
Definition validate_email (address : string) (check_deliverability : bool)
  : result string :=
  match ev_syntax ev address with
  | None => Raise EmailSyntaxError
  | Some normalized =>
      if check_deliverability then
        match ev_deliverability ev address with
        | Deliverable => Ok normalized
        | Undeliverable => Raise EmailUndeliverableError
        | CheckCrashed m => Raise (OtherError m)
        end
      else Ok normalized
  end.

Definition validate_email_address (address : string) : bool * option string :=
  if negb (Py.truthy address) || negb (Py.truthy (Py.strip address)) then (false, None)
  else
    match validate_email address true with
    | Ok v => (true, Some v)
    | Raise e =>
        if is_EmailNotValidError e then (false, None)
        else
          match validate_email address false with
          | Ok v => (true, Some v)
          | Raise _ => (false, None)
          end
    end.
End Validation.

(* ===================================================================== *)
(** ** Attachment selection *)
(* ===================================================================== *)

Section Attachments.
Variable fs : filesystem.

(** The test of one directory entry in the heuristic scan. *)
Definition heuristic_match (key fname : string) : bool :=
  let name := Py.lower (Py.splitext fname).1 in
  let words := Py.split (Py.replace name "_" " ") in
  let joined := Py.join " " words in
  String.eqb key joined || String.eqb key name.

(** The [for fname in os.listdir(resume_folder)] loop. *)
Fixpoint scan_folder (resume_folder key : string) (fnames : list string)
  : option string :=
  match fnames with
  | [] => None
  | fname :: rest =>
      let fpath := Py.path_join resume_folder fname in
      if negb (isfile fs fpath) then scan_folder resume_folder key rest
      else if heuristic_match key fname then Some fpath
      else scan_folder resume_folder key rest
  end.

Definition select_resume (job_role resume_folder : string)
    (default_resume : option string) : option string :=
  let key := normalize_key job_role in
  (* 1) exact mapping first *)
  let mapped :=
    match RESUME_MAP !! key with
    | Some p => if isfile fs p then Some p else None
    | None => None
    end in
  match mapped with
  | Some p => Some p
  | None =>
      (* 2) conservative heuristic search in folder *)
      let scanned :=
        if isdir fs resume_folder
        then scan_folder resume_folder key (listdir fs resume_folder)
        else None in
      match scanned with
      | Some p => Some p
      | None =>
          (* 3) fallback to default resume *)
          match default_resume with
          | Some d => if Py.truthy d && isfile fs d then Some d else None
          | None => None
          end
      end
  end.

Definition select_cover_letter (job_role : string) : option string * bool :=
  let key := normalize_key job_role in
  let mapped :=
    match COVER_LETTER_MAP !! key with
    | Some p => if isfile fs p then Some p else None
    | None => None
    end in
  match mapped with
  | Some p => (Some p, Py.endswith (Py.lower p) ".pdf")
  | None =>
      let txt := CONFIG_default_cover_letter_txt in
      if Py.truthy txt && isfile fs txt then (Some txt, false)
      else (None, false)
  end.
End Attachments.

(* ===================================================================== *)
(** ** The outside world: events, oracles and the effect monad *)
(* ===================================================================== *)

(** One MIME part added to a message: an attachment (labelled by its file
    name) or an inline image (labelled by its content id). *)
Record Part : Type := {
  part_data : string;
  part_maintype : string;
  part_subtype : string;
  part_label : string;
}.

(** [email.message.EmailMessage] as the script fills it. *)
Record Message : Type := {
  msg_from : string;
  msg_to : string;
  msg_subject : string;
  msg_text : string;
  msg_html : string;
  msg_related : list Part;
  msg_attachments : list Part;
}.

Inductive smtp_mode : Type := ImplicitSSL | StartTLS.

(** What the run does to the outside, in order. *)
Inductive event : Type :=
| EvSend (row : nat) (attempt : Z) (to : string)   (* one call of send_email *)
| EvSleep (seconds : Z)                            (* time.sleep *)
| EvWriteSheet (values : list (list string))       (* values().update(...) *)
| EvInvalidLog (stamp : string) (row : nat) (email : string).

Record World : Type := {
  trace : list event;     (* oldest first *)
  smtp_calls : nat;       (* SMTP sessions opened so far *)
  sheet_writes : nat;     (* sheet updates issued so far *)
  rand_draws : nat;       (* random.choice calls so far *)
}.

Definition world0 : World :=
  {| trace := []; smtp_calls := 0; sheet_writes := 0; rand_draws := 0 |}.

(** Everything the script reads from outside itself. *)
Record Env : Type := {
  env_fs : filesystem;
  env_config : Config;
  env_validator : EmailValidator;
  env_guess_type : string -> option string;               (* mimetypes.guess_type(path)[0] *)
  env_smtp : nat -> smtp_mode -> Message -> option exn;   (* k-th SMTP session: None = accepted *)
  env_sheet : nat -> option exn;                          (* k-th sheet update: None = done *)
  env_random : nat -> nat;                                (* k-th random draw *)
  env_clock : nat -> string;                              (* time.strftime(...) after k events *)
}.

(** Computations that may change the world and may raise. *)
Definition M (A : Type) : Type := World -> result A * World.

Definition ret {A} (a : A) : M A := fun w => (Ok a, w).

Definition raise {A} (e : exn) : M A := fun w => (Raise e, w).

Definition bind {A B} (m : M A) (k : A -> M B) : M B :=
  fun w =>
    match m w with
    | (Ok a, w') => k a w'
    | (Raise e, w') => (Raise e, w')
    end.

(** [try: m  except Exception: h] *)
Definition try_except {A} (m : M A) (h : exn -> M A) : M A :=
  fun w =>
    match m w with
    | (Ok a, w') => (Ok a, w')
    | (Raise e, w') => h e w'
    end.

Definition lift_result {A} (r : result A) : M A := fun w => (r, w).

Notation "'let*' x ':=' m 'in' k" := (bind m (fun x => k))
  (at level 10, x name, m at level 100, k at level 200).
Notation "m ';;' k" := (bind m (fun _ => k))
  (at level 100, k at level 200, right associativity).

Definition emit (e : event) : M unit :=
  fun w => (Ok tt, {| trace := trace w ++ [e]; smtp_calls := smtp_calls w;
                      sheet_writes := sheet_writes w; rand_draws := rand_draws w |}).

Section Effects.
Variable env : Env.

(** [random.choice(options)] on a non-empty list. *)
Definition random_choice (options : list string) : M string :=
  fun w =>
    let k := (env_random env (rand_draws w) mod length options)%nat in
    (Ok (nth k options EmptyString),
     {| trace := trace w; smtp_calls := smtp_calls w;
        sheet_writes := sheet_writes w; rand_draws := S (rand_draws w) |}).

(** [time.sleep(seconds)]: negative lengths are refused by Python. *)
Definition sleep (seconds : Z) : M unit :=
  if seconds <? 0 then raise (ValueError "sleep length must be non-negative")
  else emit (EvSleep seconds).

(** One SMTP session: connect, (STARTTLS,) login, send_message. *)
Definition smtp_session (mode : smtp_mode) (message : Message) : M unit :=
  fun w =>
    let w' := {| trace := trace w; smtp_calls := S (smtp_calls w);
                 sheet_writes := sheet_writes w; rand_draws := rand_draws w |} in
    match env_smtp env (smtp_calls w) mode message with
    | None => (Ok tt, w')
    | Some e => (Raise e, w')
    end.

(** [service.spreadsheets().values().update(...).execute()] *)
Definition sheet_update (values : list (list string)) : M unit :=
  fun w =>
    let w' := {| trace := trace w ++ [EvWriteSheet values];
                 smtp_calls := smtp_calls w;
                 sheet_writes := S (sheet_writes w); rand_draws := rand_draws w |} in
    match env_sheet env (sheet_writes w) with
    | None => (Ok tt, w')
    | Some e => (Raise e, w')
    end.

(** One line appended to [invalid_emails.log]. *)
Definition log_invalid (i : nat) (e : string) : M unit :=
  fun w => emit (EvInvalidLog (env_clock env (length (trace w))) i e) w.
End Effects.

(* ===================================================================== *)
(** ** Message composition and transport *)
(* ===================================================================== *)

Definition HTML_TEMPLATES : list string := [ "templates/email_template.html" ].

(** [x or fallback] for an optional string *)
Definition or_else (x : option string) (fallback : string) : string :=
  match x with
  | Some s => if Py.truthy s then s else fallback
  | None => fallback
  end.

Definition opt_truthy (x : option string) : bool :=
  match x with Some s => Py.truthy s | None => false end.

(** The inline images, in the insertion order of the dict literal. *)
Definition inline_images : list (string * string) :=
  [ ("image1", "image1.png"); ("image2", "image2.png"); ("image4", "image4.png") ].

Section Compose.
Variable env : Env.
Let fs := env_fs env.

Definition render_html_template (job_role company : string) (name : option string)
  : M string :=
  let* path := random_choice env HTML_TEMPLATES in
  let* html := lift_result (read_file fs path) in
  let html := Py.replace html "{{Name}}" (or_else name "Hiring Manager") in
  let html := Py.replace html "{{Company}}" (or_else (Some company) "your company") in
  let html := Py.replace html "{{JobRole}}" (or_else (Some job_role) "the role") in
  ret html.

(** [ctype, _ = mimetypes.guess_type(path)], the default when it is [None],
    and [maintype, subtype = ctype.split("/", 1)]. *)
Definition content_type (path default : string) : result (string * string) :=
  let ctype := match env_guess_type env path with Some c => c | None => default end in
  match Py.split_once "/" ctype with
  | Some ms => Ok ms
  | None => Raise (ValueError "not enough values to unpack")
  end.

(** Read [path] and wrap it as a MIME part. *)
Definition load_part (path default label : string) : result Part :=
  match read_file fs path with
  | Raise e => Raise e
  | Ok data =>
      match content_type path default with
      | Raise e => Raise e
      | Ok (maintype, subtype) =>
          Ok {| part_data := data; part_maintype := maintype;
                part_subtype := subtype; part_label := label |}
      end
  end.

(** The [for cid, path in inline_images.items()] loop. *)
Fixpoint add_inline_images (images : list (string * string)) (acc : list Part)
  : result (list Part) :=
  match images with
  | [] => Ok acc
  | (cid, path) :: rest =>
      if isfile fs path then
        match load_part path "image/png" ("<" ++ cid ++ ">") with
        | Raise e => Raise e
        | Ok part => add_inline_images rest (acc ++ [part])
        end
      else add_inline_images rest acc
  end.

Definition build_email_message
    (to_email : string) (to_name : option string) (job_role company : string)
    (resume_path : string) (cover_path : option string) (cover_is_pdf : bool)
    (sender_name sender_email where_found : string) : M Message :=
  let* greeting :=
    (if opt_truthy to_name then ret ("Hello " ++ or_else to_name "" ++ ",")
     else random_choice env ["Hi,"; "Hello,"]) in
  let text_body :=
    greeting ++ Py.nl ++ Py.nl ++
    "I'm reaching out about the " ++ job_role ++ " role at " ++ company ++
    ". I saw the opening on " ++ where_found ++ ". " ++
    "I've attached my resume and cover letter." ++ Py.nl ++ Py.nl ++
    "Thanks for your time," ++ Py.nl ++ sender_name in
  let* html_body := render_html_template job_role company to_name in
  let* related := lift_result (add_inline_images inline_images []) in
  (* attach resume *)
  if negb (isfile fs resume_path)
  then raise (FileNotFoundError ("Resume not found: " ++ resume_path))
  else
    let* resume :=
      lift_result (load_part resume_path "application/octet-stream"
                             (Py.basename resume_path)) in
    (* attach cover letter (PDF or txt) *)
    let* covers :=
      match cover_path with
      | Some cp =>
          if Py.truthy cp then
            let* cover :=
              lift_result (load_part cp "application/octet-stream" (Py.basename cp)) in
            ret [cover]
          else ret []
      | None => ret []
      end in
    ret {| msg_from := sender_name ++ " <" ++ sender_email ++ ">";
           msg_to := to_email;
           msg_subject := "Application for " ++ job_role ++ " - " ++ sender_name;
           msg_text := text_body;
           msg_html := html_body;
           msg_related := related;
           msg_attachments := resume :: covers |}.

(** [smtp_conf], the dict handed to [send_email]. *)
Record SmtpConf : Type := {
  conf_host : string;
  conf_port : Z;
  conf_username : string;
  conf_password : string;
  conf_use_ssl : bool;
}.

Definition send_email (message : Message) (smtp_conf : SmtpConf) : M unit :=
  if negb (Py.truthy (conf_username smtp_conf))
  then raise (RuntimeError "SMTP username is empty; set SMTP_USERNAME in your environment.")
  else if negb (Py.truthy (conf_password smtp_conf))
  then raise (RuntimeError "SMTP password is empty; set SMTP_PASSWORD (or matching env) in your environment.")
  else if conf_use_ssl smtp_conf
  then smtp_session env ImplicitSSL message
  else smtp_session env StartTLS message.
End Compose.

(* ===================================================================== *)
(** ** The table *)
(* ===================================================================== *)

(** A cell of the [DataFrame]: a string from the sheet, or [None] where
    pandas padded a short row. *)
Inductive cell : Type :=
| CStr (s : string)
| CNone.

(** [str(value)] *)
Definition py_str (c : cell) : string :=
  match c with CStr s => s | CNone => "None" end.

(** The frame: its column labels and its rows, each a map from label to cell;
    the index is the row position (a [RangeIndex]). *)
Record DataFrame : Type := {
  columns : list string;
  rows : list (gmap string cell);
}.

(** [row.get(col, default)] *)
Definition row_get (row : gmap string cell) (col default : string) : cell :=
  match row !! col with
  | Some c => c
  | None => CStr default
  end.

(** [str(row.get(col, "")).strip()] *)
Definition field (row : gmap string cell) (col : string) : string :=
  Py.strip (py_str (row_get row col "")).

(** [col in df.columns] *)
Definition has_column (df : DataFrame) (col : string) : bool :=
  bool_decide (col ∈ columns df).

(** [df.at[i, col] = v] for an existing row label [i] *)
Definition set_at (df : DataFrame) (i : nat) (col : string) (v : cell) : DataFrame :=
  {| columns := columns df; rows := alter (insert col v) i (rows df) |}.

(** [df[col] = value] for a column that is not there yet *)
Definition add_column (df : DataFrame) (col value : string) : DataFrame :=
  {| columns := columns df ++ [col];
     rows := map (insert col (CStr value)) (rows df) |}.

(** [df.empty] *)
Definition df_empty (df : DataFrame) : bool :=
  match columns df, rows df with
  | [], _ | _, [] => true
  | _, _ => false
  end.

(** [[header] + df.fillna("").astype(str).values.tolist()] *)
Definition written_cell (c : option cell) : string :=
  match c with
  | Some (CStr s) => s
  | _ => EmptyString
  end.

Definition sheet_values (df : DataFrame) : list (list string) :=
  columns df :: map (fun row => map (fun col => written_cell (row !! col)) (columns df)) (rows df).

(** [df.drop(labels).reset_index(drop=True)], rows numbered from [i]. *)
Fixpoint drop_rows (i : nat) (labels : list nat) (rs : list (gmap string cell))
  : list (gmap string cell) :=
  match rs with
  | [] => []
  | r :: rest =>
      if bool_decide (i ∈ labels) then drop_rows (S i) labels rest
      else r :: drop_rows (S i) labels rest
  end.

(* ===================================================================== *)
(** ** Main orchestration *)
(* ===================================================================== *)

Definition dedup_key : Type := string * string * string.

Definition in_list (s : string) (l : list string) : bool :=
  existsb (String.eqb s) l.

Definition cell_of_option (o : option string) : cell :=
  match o with Some s => CStr s | None => CNone end.

Section Orchestrator.
Variable env : Env.
Let fs := env_fs env.
Let CONFIG := env_config env.

Definition write_dataframe_to_sheet (df : DataFrame) : M unit :=
  sheet_update env (sheet_values df).

(** The validation pass [for i, row in df.iterrows()], rows numbered from [i]:
    the rows with normalized addresses, and [invalid_rows]. *)
Fixpoint validate_rows (i : nat) (rs : list (gmap string cell))
  : list (gmap string cell) * list (nat * string) :=
  match rs with
  | [] => ([], [])
  | row :: rest =>
      let email := field row "Email" in
      let res := validate_email_address (env_validator env) email in
      let tail := validate_rows (S i) rest in
      if res.1
      then (<["Email" := cell_of_option res.2]> row :: tail.1, tail.2)
      else (row :: tail.1, (i, email) :: tail.2)
  end.

Fixpoint log_invalid_rows (invalid_rows : list (nat * string)) : M unit :=
  match invalid_rows with
  | [] => ret tt
  | (i, e) :: rest => log_invalid env i e ;; log_invalid_rows rest
  end.

Definition smtp_conf : SmtpConf :=
  {| conf_host := smtp_host CONFIG;
     conf_port := smtp_port CONFIG;
     conf_username := smtp_username CONFIG;
     conf_password := smtp_password CONFIG;
     conf_use_ssl := smtp_use_ssl CONFIG |}.

(** The [while attempt < max_retries and not sent] loop.  Each iteration
    raises [attempt] by one, so [max_retries - attempt] iterations suffice;
    [None] is returned only if [fuel] runs out before the loop condition
    fails. *)
Fixpoint retry_loop (fuel : nat) (idx : nat) (email : string) (msg : Message)
    (attempt : Z) (sent : bool) : M (option (Z * bool)) :=
  if (attempt <? max_retries CONFIG) && negb sent then
    match fuel with
    | O => ret None
    | S fuel' =>
        let attempt := attempt + 1 in
        let* sent :=
          try_except
            (emit (EvSend idx attempt email) ;;
             send_email env msg smtp_conf ;;
             ret true)
            (fun e =>
               (if attempt <? max_retries CONFIG
                then sleep (retry_delay_seconds CONFIG)
                else ret tt) ;;
               ret sent) in
        retry_loop fuel' idx email msg attempt sent
    end
  else ret (Some (attempt, sent)).

Definition send_with_retries (idx : nat) (email : string) (msg : Message)
  : M (Z * bool) :=
  let* r := retry_loop (Z.to_nat (max_retries CONFIG)) idx email msg 0 false in
  match r with
  | Some res => ret res
  | None => raise (OtherError "retry loop did not terminate")
  end.

(** One iteration of [for idx in range(len(df))]; the loop state is the
    table and [processed_keys]. *)
Definition process_row (idx : nat) (st : DataFrame * gset dedup_key)
  : M (DataFrame * gset dedup_key) :=
  let df := st.1 in
  let processed_keys := st.2 in
  match rows df !! idx with
  | None => ret st
  | Some row =>
      let job := field row "JobRole" in
      let company := field row "CompanyName" in
      let contact := if has_column df "ContactName" then field row "ContactName" else "" in
      let email := field row "Email" in
      let status := field row "Status" in
      if String.eqb (Py.upper status) "SENT" then ret st
      else if Py.truthy status
              && negb (in_list (Py.upper status) [""; "PENDING"; "TO_SEND"]) then ret st
      else
        let key : dedup_key := (Py.lower email, Py.lower job, Py.lower company) in
        if bool_decide (key ∈ processed_keys) then
          ret (set_at df idx "Status" (CStr "SKIPPED_DUPLICATE"), processed_keys)
        else
          let resume_path :=
            select_resume fs job (resumes_folder CONFIG) (Some (default_resume CONFIG)) in
          if negb (opt_truthy resume_path) then
            let df := set_at df idx "Status" (CStr "SKIPPED_NO_RESUME") in
            write_dataframe_to_sheet df ;;
            ret (df, {[key]} ∪ processed_keys)
          else
            let cover := select_cover_letter fs job in
            let* built :=
              try_except
                (let* msg :=
                   build_email_message env email
                     (if Py.truthy contact then Some contact else None)
                     job company (or_else resume_path "") cover.1 cover.2
                     (sender_name CONFIG)
                     (or_else (Some (sender_email CONFIG)) (smtp_username CONFIG))
                     (where_found CONFIG) in
                 ret (Some msg))
                (fun _ => ret None) in
            match built with
            | None =>
                let df := set_at df idx "Status" (CStr "FAILED_BUILD_MESSAGE") in
                write_dataframe_to_sheet df ;;
                ret (df, {[key]} ∪ processed_keys)
            | Some msg =>
                (* send with retries *)
                let* res := send_with_retries idx email msg in
                let df :=
                  set_at df idx "Status" (CStr (if res.2 then "SENT" else "FAILED")) in
                try_except (write_dataframe_to_sheet df) (fun _ => ret tt) ;;
                ret (df, {[key]} ∪ processed_keys)
            end
  end.

Fixpoint for_rows (idxs : list nat) (st : DataFrame * gset dedup_key)
  : M (DataFrame * gset dedup_key) :=
  match idxs with
  | [] => ret st
  | idx :: rest => let* st' := process_row idx st in for_rows rest st'
  end.

(** The send loop over the whole table, starting with no processed key. *)
Definition send_loop (df : DataFrame) : M (DataFrame * gset dedup_key) :=
  for_rows (seq 0 (length (rows df))) (df, ∅).

(** The validation pass with its write-back; yields the cleaned table. *)
Definition validate_and_clean (df : DataFrame) : M DataFrame :=
  let vr := validate_rows 0 (rows df) in
  let df := {| columns := columns df; rows := vr.1 |} in
  let invalid_rows := vr.2 in
  match invalid_rows with
  | [] => ret df
  | _ :: _ =>
      log_invalid_rows invalid_rows ;;
      let df := {| columns := columns df;
                   rows := drop_rows 0 (map fst invalid_rows) (rows df) |} in
      write_dataframe_to_sheet df ;;
      ret df
  end.

(** [process_sheet_and_send] from the point where the sheet has been read
    into [df]; the result is the table as it stands when the function
    returns. *)
Definition process_sheet_and_send (df : DataFrame) : M DataFrame :=
  if df_empty df then ret df
  else if negb (forallb (has_column df) ["JobRole"; "CompanyName"; "Email"]) then ret df
  else
    let df := if negb (has_column df "Status") then add_column df "Status" "" else df in
    let* df := validate_and_clean df in
    let* st := send_loop df in
    ret st.1.
End Orchestrator.

(* ===================================================================== *)
(** ** Notions of the specification, and sample inputs *)
(* ===================================================================== *)



(** Two rows that agree on every column but [Status]. *)
Definition same_but_status (r r' : gmap string cell) : Prop :=
  forall col, col <> "Status" -> r' !! col = r !! col.







Definition is_send (e : event) : bool :=
  match e with EvSend _ _ _ => true | _ => false end.


(** The gate on the existing status, as [process_row] applies it. *)
Definition skipped_by_status (row : gmap string cell) : bool :=
  let status := field row "Status" in
  String.eqb (Py.upper status) "SENT"
  || (Py.truthy status && negb (in_list (Py.upper status) [""; "PENDING"; "TO_SEND"])).

(** The dedup key of a row, as [process_row] computes it. *)
Definition row_key (row : gmap string cell) : dedup_key :=
  (Py.lower (field row "Email"), Py.lower (field row "JobRole"),
   Py.lower (field row "CompanyName")).

(** The resume [process_row] resolves for a row. *)
Definition row_resume (env : Env) (row : gmap string cell) : option string :=
  select_resume (env_fs env) (field row "JobRole")
    (resumes_folder (env_config env)) (Some (default_resume (env_config env))).

(** The call of [build_email_message] that [process_row] makes for a row. *)
Definition compose_row (env : Env) (df : DataFrame) (row : gmap string cell) : M Message :=
  let contact := if has_column df "ContactName" then field row "ContactName" else "" in
  let cover := select_cover_letter (env_fs env) (field row "JobRole") in
  build_email_message env (field row "Email")
    (if Py.truthy contact then Some contact else None)
    (field row "JobRole") (field row "CompanyName")
    (or_else (row_resume env row) "") cover.1 cover.2
    (sender_name (env_config env))
    (or_else (Some (sender_email (env_config env))) (smtp_username (env_config env)))
    (where_found (env_config env)).

(** [df.at[idx, "Status"] = status] *)
Definition mark (df : DataFrame) (idx : nat) (status : string) : DataFrame :=
  set_at df idx "Status" (CStr status).

(** The events that processing row [idx] may leave behind. *)
Definition row_event (idx : nat) (e : event) : Prop :=
  match e with
  | EvSend r _ _ => r = idx
  | EvSleep _ | EvWriteSheet _ => True
  | EvInvalidLog _ _ _ => False
  end.

(** [m] only appends events that satisfy [P] to the trace, however it ends. *)
Definition emits {A} (P : event -> Prop) (m : M A) : Prop :=
  forall w r w', m w = (r, w') ->
    exists t, trace w' = (trace w ++ t)%list /\ Forall P t.

(** [m], when it returns normally, returns a value that satisfies [Q]. *)
Definition yields {A} (Q : A -> Prop) (m : M A) : Prop :=
  forall w a w', m w = (Ok a, w') -> Q a.

(** The events that processing the rows [idxs] may leave behind. *)
Definition rows_event (idxs : list nat) (e : event) : Prop :=
  match e with
  | EvSend r _ _ => r ∈ idxs
  | EvSleep _ | EvWriteSheet _ => True
  | EvInvalidLog _ _ _ => False
  end.

(** The statuses a row can receive once it passed the gate and the
    duplicate test. *)
Definition settled_statuses : list string :=
  ["SKIPPED_NO_RESUME"; "FAILED_BUILD_MESSAGE"; "SENT"; "FAILED"].

(** The loop states in which one iteration on row [idx] can end when it
    returns normally. *)
Inductive row_outcome (idx : nat) (df : DataFrame) (keys : gset dedup_key)
  : DataFrame * gset dedup_key -> Prop :=
| outcome_absent :
    rows df !! idx = None ->
    row_outcome idx df keys (df, keys)
| outcome_skipped row :
    rows df !! idx = Some row ->
    skipped_by_status row = true ->
    row_outcome idx df keys (df, keys)
| outcome_duplicate row :
    rows df !! idx = Some row ->
    skipped_by_status row = false ->
    row_key row ∈ keys ->
    row_outcome idx df keys (mark df idx "SKIPPED_DUPLICATE", keys)
| outcome_settled row status :
    rows df !! idx = Some row ->
    skipped_by_status row = false ->
    row_key row ∉ keys ->
    status ∈ settled_statuses ->
    row_outcome idx df keys (mark df idx status, {[row_key row]} ∪ keys).

(** A small concrete installation used to exercise the definitions. *)
Module Sample.

Definition fs : filesystem := fun p =>
  if String.eqb p "resumes"
  then Some (Dir ["Sahil_Bhanushali-M.pdf"; "data_engineer.pdf"; "default.pdf"; "notes"])
  else if String.eqb p "resumes/Sahil_Bhanushali-M.pdf" then Some (File (Some "%PDF backend"))
  else if String.eqb p "resumes/data_engineer.pdf" then Some (File (Some "%PDF data"))
  else if String.eqb p "resumes/default.pdf" then Some (File (Some "%PDF default"))
  else if String.eqb p "resumes/notes" then Some (Dir [])
  else if String.eqb p "templates/email_template.html"
  then Some (File (Some "<p>Dear {{Name}}, about {{JobRole}} at {{Company}}</p>"))
  else None.


(** Syntax: a non-empty local part, an [@] and a non-empty domain; the domain
    is lower-cased.  Deliverability: one domain does not resolve, for another
    the resolver itself breaks. *)
Definition validator : EmailValidator :=
  {| ev_syntax := fun a =>
       match Py.split_once "@" a with
       | Some (loc, dom) =>
           if Py.truthy loc && Py.truthy dom then Some (loc ++ "@" ++ Py.lower dom) else None
       | None => None
       end;
     ev_deliverability := fun a =>
       if Py.endswith a "@no-such-domain.example" then Undeliverable
       else if Py.endswith a "@resolver-down.example" then CheckCrashed "resolver unavailable"
       else Deliverable |}.

Definition config (retries delay : Z) : Config :=
  {| resumes_folder := "resumes";
     default_resume := "resumes/default.pdf";
     smtp_host := "smtp.gmail.com";
     smtp_port := 587;
     smtp_use_ssl := false;
     smtp_username := "me@example.org";
     smtp_password := "secret";
     sender_name := "Sahil Bhanushali";
     sender_email := "";
     max_retries := retries;
     retry_delay_seconds := delay;
     where_found := "LinkedIn or company website" |}.

(** An installation whose [k]-th SMTP session fails exactly when [smtp_fails k]. *)
Definition env (the_fs : filesystem) (retries : Z) (smtp_fails : nat -> bool) : Env :=
  {| env_fs := the_fs;
     env_config := config retries 30;
     env_validator := validator;
     env_guess_type := fun p =>
       if Py.endswith p ".pdf" then Some "application/pdf"
       else if Py.endswith p ".png" then Some "image/png"
       else None;
     env_smtp := fun k _ _ => if smtp_fails k then Some SMTPError else None;
     env_sheet := fun _ => None;
     env_random := fun _ => O;
     env_clock := fun _ => "2024-05-01 09:00:00" |}.

(** Three retries and a transport that accepts every message. *)
Definition env_accepting : Env := env fs 3 (fun _ => false).



(** Two retries and a transport that never accepts. *)
Definition env_down : Env := env fs 2 (fun _ => true).

(** A transport that never accepts and a negative retry delay. *)
Definition env_negative_delay : Env :=
  {| env_fs := fs;
     env_config := config 3 (-1);
     env_validator := validator;
     env_guess_type := env_guess_type env_down;
     env_smtp := env_smtp env_down;
     env_sheet := env_sheet env_down;
     env_random := env_random env_down;
     env_clock := env_clock env_down |}.

Definition contact (job company email status : string) : gmap string cell :=
  <["JobRole" := CStr job]>
    (<["CompanyName" := CStr company]>
       (<["Email" := CStr email]> (<["Status" := CStr status]> ∅))).

Definition table (rs : list (gmap string cell)) : DataFrame :=
  {| columns := ["JobRole"; "CompanyName"; "Email"; "Status"]; rows := rs |}.

Definition backend_row : gmap string cell :=
  contact "Backend Developer" "Acme" "hr@acme.example" "".

(** Missing SMTP user name. *)
Definition env_no_credentials : Env :=
  {| env_fs := fs;
     env_config :=
       {| resumes_folder := "resumes";
          default_resume := "resumes/default.pdf";
          smtp_host := "smtp.gmail.com";
          smtp_port := 587;
          smtp_use_ssl := false;
          smtp_username := "";
          smtp_password := "secret";
          sender_name := "Sahil Bhanushali";
          sender_email := "";
          max_retries := 3;
          retry_delay_seconds := 30;
          where_found := "LinkedIn or company website" |};
     env_validator := validator;
     env_guess_type := env_guess_type env_accepting;
     env_smtp := env_smtp env_accepting;
     env_sheet := env_sheet env_accepting;
     env_random := env_random env_accepting;
     env_clock := env_clock env_accepting |}.

(** The installation with one inline image and the default cover letter. *)
Definition fs_full : filesystem := fun p =>
  if String.eqb p "image2.png" then Some (File (Some "PNG two"))
  else if String.eqb p "cover_letters/default_cover.txt"
  then Some (File (Some "Dear hiring team"))
  else fs p.

Definition env_full : Env := env fs_full 3 (fun _ => false).

Definition empty_message : Message :=
  {| msg_from := ""; msg_to := ""; msg_subject := ""; msg_text := "";
     msg_html := ""; msg_related := []; msg_attachments := [] |}.

(** The message of a composition, the empty one if it failed. *)
Definition message_of (r : result Message * World) : Message :=
  match r.1 with Ok m => m | Raise _ => empty_message end.

(** A sheet that refuses every update. *)
Definition env_sheet_down : Env :=
  {| env_fs := fs;
     env_config := config 3 30;
     env_validator := validator;
     env_guess_type := env_guess_type env_accepting;
     env_smtp := env_smtp env_accepting;
     env_sheet := fun _ => Some HttpError;
     env_random := env_random env_accepting;
     env_clock := env_clock env_accepting |}.

(** An installation without any resume. *)
Definition fs_no_resumes : filesystem := fun p =>
  if String.eqb p "templates/email_template.html"
  then Some (File (Some "<p>Dear {{Name}}</p>"))
  else None.

Definition env_no_resumes_sheet_down : Env :=
  {| env_fs := fs_no_resumes;
     env_config := config 3 30;
     env_validator := validator;
     env_guess_type := env_guess_type env_accepting;
     env_smtp := env_smtp env_accepting;
     env_sheet := fun _ => Some HttpError;
     env_random := env_random env_accepting;
     env_clock := env_clock env_accepting |}.

(** The same application again, written differently, and marked pending. *)
Definition backend_row_again : gmap string cell :=
  contact "backend developer " "ACME" "HR@ACME.example" "pending".




End Sample.

(* ===================================================================== *)
(** ** Reading the sheet *)
(* ===================================================================== *)

(** A row of the sheet padded with [None] up to [width] cells. *)
Definition pad_row (width : nat) (cells : list string) : list cell :=
  (map CStr cells ++ replicate (width - length cells) CNone)%list.

(** The row of a frame with the column labels [header]; labels are taken
    to be distinct. *)
Definition row_of (header : list string) (cells : list cell) : gmap string cell :=
  list_to_map (zip header cells).

(** [pd.DataFrame(data, columns=header)] for a list of lists.  The pandas
    constructor is an external dependency; its behaviour on this kind of
    input is taken as follows: the data are as wide as their longest row,
    shorter rows are padded with [None], and a width other than the number
    of labels is refused. *)
Definition pandas_DataFrame (data : list (list string)) (header : list string)
  : result DataFrame :=
  match data with
  | [] => Ok {| columns := header; rows := [] |}
  | _ :: _ =>
      let width := max_list (map length data) in
      if (width =? length header)%nat
      then Ok {| columns := header;
                 rows := map (fun cells => row_of header (pad_row width cells)) data |}
      else Raise (ValueError "columns passed do not match the data")
  end.

(** [read_sheet_to_dataframe], given what [values().get(...).execute()]
    answered: an error, or the list under ["values"] (empty when absent). *)
Definition read_sheet_to_dataframe (response : result (list (list string)))
  : result DataFrame :=
  match response with
  | Raise e => Raise e
  | Ok values =>
      match values with
      | [] => Ok {| columns := []; rows := [] |}
      | first :: data =>
          let header := map Py.strip first in
          match pandas_DataFrame data header with
          | Raise e => Raise e
          | Ok df =>
              Ok (if negb (has_column df "Status") then add_column df "Status" "" else df)
          end
      end
  end.

(* ===================================================================== *)
(** ** Authorization *)
(* ===================================================================== *)

Module Auth.

Local Open Scope list_scope.

(** What the script looks at in a [Credentials] object. *)
Record Credentials : Type := {
  valid : bool;
  expired : bool;
  refresh_token : bool;    (* truthiness of creds.refresh_token *)
}.

(** The collaborators of [get_sheets_service]. *)
Record AuthEnv : Type := {
  token_file_exists : bool;                       (* os.path.exists(token_file) *)
  client_secrets_exists : bool;                   (* os.path.exists(client_secrets_file) *)
  load_token : result Credentials;                (* Credentials.from_authorized_user_file *)
  refresh : Credentials -> result Credentials;    (* creds.refresh(Request()): creds afterwards *)
  run_flow : result Credentials;                  (* InstalledAppFlow...run_local_server *)
  save_token : Credentials -> option exn;         (* open(token_file, "w") and write *)
  build_service : Credentials -> option exn;      (* build("sheets", "v4", credentials=creds) *)
}.

Inductive auth_event : Type :=
| AeLoadToken
| AeRefresh
| AeFlow
| AeSaveToken (creds : Credentials)
| AeBuild (creds : Credentials).

(** [get_sheets_service]: the credentials the service was built with, or the
    error, and what was done on the way. *)
Definition get_sheets_service (a : AuthEnv) : result Credentials * list auth_event :=
  (* creds = None; load the token file if it is there *)
  let loaded : option Credentials * list auth_event :=
    if token_file_exists a then
      match load_token a with
      | Ok c => (Some c, [AeLoadToken])
      | Raise _ => (None, [AeLoadToken])
      end
    else (None, []) in
  let needs_work :=
    match loaded.1 with
    | None => true
    | Some c => negb (valid c)
    end in
  let obtained : result Credentials * list auth_event :=
    if needs_work then
      let refreshed : option Credentials * list auth_event :=
        match loaded.1 with
        | Some c =>
            if expired c && refresh_token c then
              match refresh a c with
              | Ok c' => (Some c', loaded.2 ++ [AeRefresh])
              | Raise _ => (None, loaded.2 ++ [AeRefresh])
              end
            else (Some c, loaded.2)
        | None => (None, loaded.2)
        end in
      match refreshed.1 with
      | Some c => (Ok c, refreshed.2)
      | None =>
          if negb (client_secrets_exists a)
          then (Raise (FileNotFoundError
                         "client_secrets.json not found; place your client credentials there."),
                refreshed.2)
          else
            match run_flow a with
            | Raise e => (Raise e, refreshed.2 ++ [AeFlow])
            | Ok c =>
                match save_token a c with
                | Some e => (Raise e, refreshed.2 ++ [AeFlow; AeSaveToken c])
                | None => (Ok c, refreshed.2 ++ [AeFlow; AeSaveToken c])
                end
            end
      end
    else
      match loaded.1 with
      | Some c => (Ok c, loaded.2)
      | None => (Raise (OtherError "unreachable"), loaded.2)
      end in
  match obtained.1 with
  | Raise e => (Raise e, obtained.2)
  | Ok c =>
      match build_service a c with
      | Some e => (Raise e, obtained.2 ++ [AeBuild c])
      | None => (Ok c, obtained.2 ++ [AeBuild c])
      end
  end.

End Auth.

(* ===================================================================== *)
(** ** The entry point *)
(* ===================================================================== *)

(** [process_sheet_and_send] from its first line: the service, the read,
    then the rest. *)
Definition run_script (env : Env) (a : Auth.AuthEnv)
    (response : result (list (list string))) : M DataFrame :=
  match (Auth.get_sheets_service a).1 with
  | Raise e => raise e
  | Ok _ =>
      match read_sheet_to_dataframe response with
      | Raise e => raise e
      | Ok df => process_sheet_and_send env df
      end
  end.

(** The [__main__] block: the exit status of the process. *)
Definition main (env : Env) (a : Auth.AuthEnv)
    (response : result (list (list string))) (w : World) : Z * World :=
  match run_script env a response w with
  | (Ok _, w') => (0, w')
  | (Raise _, w') => (1, w')
  end.

(* ===================================================================== *)
(** ** Further notions used in the statements *)
(* ===================================================================== *)

(** [m] relates the world before to the world after by [R], however it ends. *)
Definition keeps {A} (R : World -> World -> Prop) (m : M A) : Prop :=
  forall w r w', m w = (r, w') -> R w w'.

(** Number of send attempts in a trace. *)
Definition count_sends (t : list event) : nat := length (List.filter is_send t).

(** [m] adds at most [n] send attempts to the trace, however it ends. *)
Definition sends_within {A} (n : nat) (m : M A) : Prop :=
  forall w r w', m w = (r, w') ->
    (count_sends (trace w') <= count_sends (trace w) + n)%nat.

(** A write of a whole table with the labels [cols] and [n] rows. *)
Definition full_write (cols : list string) (n : nat) (e : event) : Prop :=
  match e with
  | EvWriteSheet values =>
      exists body, values = cols :: body /\ length body = n /\
                   Forall (fun line => length line = length cols) body
  | _ => True
  end.

(** No uppercase ASCII letter and no blank at either end. *)
Definition is_upper_char (c : ascii) : bool := Py.between 65 90 (Py.code c).

Fixpoint last_char (s : string) : option ascii :=
  match s with
  | EmptyString => None
  | String c EmptyString => Some c
  | String _ s' => last_char s'
  end.

Definition first_char (s : string) : option ascii :=
  match s with
  | EmptyString => None
  | String c _ => Some c
  end.

Fixpoint string_forall (P : ascii -> bool) (s : string) : bool :=
  match s with
  | EmptyString => true
  | String c s' => P c && string_forall P s'
  end.

(** A frame as [read_sheet_to_dataframe] can rebuild it from what
    [write_dataframe_to_sheet] sends: distinct, trimmed labels, a Status
    column, and in every row a string under every label and nothing else. *)
Definition sheet_shaped (df : DataFrame) : Prop :=
  NoDup (columns df) /\
  Forall (fun col => Py.strip col = col) (columns df) /\
  "Status" ∈ columns df /\
  Forall (fun row : gmap string cell =>
            forall col, (col ∈ columns df -> exists s, row !! col = Some (CStr s))
                        /\ (col ∉ columns df -> row !! col = None))
         (rows df).

(* ===================================================================== *)
(** * Properties *)
(* ===================================================================== *)

Example lower_ex : Py.lower "Backend Developer" = "backend developer".
Proof. reflexivity. Qed.

Example upper_ex : Py.upper "to_send" = "TO_SEND".
Proof. reflexivity. Qed.

Example strip_ex : Py.strip "  Data  Engineer  " = "Data  Engineer".
Proof. reflexivity. Qed.

Example split_ex : Py.split " data   scientist " = ["data"; "scientist"].
Proof. reflexivity. Qed.

Example replace_ex :
  Py.replace "Dear {{Name}} of {{Name}}!" "{{Name}}" "Ann" = "Dear Ann of Ann!".
Proof. reflexivity. Qed.

Example splitext_ex1 : Py.splitext "Sahil_Bhanushali-M.pdf" = ("Sahil_Bhanushali-M", ".pdf").
Proof. reflexivity. Qed.

Example splitext_ex2 : Py.splitext ".bashrc" = (".bashrc", "").
Proof. reflexivity. Qed.

Example splitext_ex3 : Py.splitext "a.tar.gz" = ("a.tar", ".gz").
Proof. reflexivity. Qed.

Example path_join_ex : Py.path_join "resumes" "cv.pdf" = "resumes/cv.pdf".
Proof. reflexivity. Qed.

Example basename_ex : Py.basename "resumes/cv.pdf" = "cv.pdf".
Proof. reflexivity. Qed.

(* ===================================================================== *)
(** ** Attachment selection *)
(* ===================================================================== *)

Section SelectResumeFacts.
Variable fs : filesystem.

Lemma scan_folder_isfile folder key fnames p :
  scan_folder fs folder key fnames = Some p -> isfile fs p = true.
Proof.
  induction fnames as [|fname rest IH]; simpl; [discriminate|].
  destruct (isfile fs (Py.path_join folder fname)) eqn:Hfile; simpl; [|exact IH].
  destruct (heuristic_match key fname); [|exact IH].
  intros [= <-]. exact Hfile.
Qed.

Lemma scan_folder_no_match folder key fnames :
  (forall fname, fname ∈ fnames ->
     isfile fs (Py.path_join folder fname) = true ->
     heuristic_match key fname = false) ->
  scan_folder fs folder key fnames = None.
Proof.
  induction fnames as [|fname rest IH]; intros Hno; simpl; [reflexivity|].
  destruct (isfile fs (Py.path_join folder fname)) eqn:Hfile; simpl.
  - rewrite (Hno fname); [|left|exact Hfile].
    apply IH. intros f Hf. apply Hno. now right.
  - apply IH. intros f Hf. apply Hno. now right.
Qed.

End SelectResumeFacts.

(** C9.  Whatever path [select_resume] returns is a regular file of the file
    system it was resolved against: the mapped path and the default are
    returned only under a successful [isfile] test, and the folder scan only
    returns entries that passed it. *)
Theorem select_resume_returns_existing_file
    (fs : filesystem) (job_role folder : string) (default : option string) (p : string) :
  select_resume fs job_role folder default = Some p ->
  isfile fs p = true.
Proof.
  unfold select_resume.
  destruct (RESUME_MAP !! normalize_key job_role) as [m|] eqn:Hmap.
  - destruct (isfile fs m) eqn:Hm; [now intros [= <-]|].
    destruct (isdir fs folder).
    + destruct (scan_folder fs folder _ _) as [q|] eqn:Hscan.
      * intros [= <-]. eapply scan_folder_isfile, Hscan.
      * destruct default as [d|]; [|discriminate].
        destruct (Py.truthy d); simpl; [|discriminate].
        destruct (isfile fs d) eqn:Hd; [now intros [= <-]|discriminate].
    + destruct default as [d|]; [|discriminate].
      destruct (Py.truthy d); simpl; [|discriminate].
      destruct (isfile fs d) eqn:Hd; [now intros [= <-]|discriminate].
  - destruct (isdir fs folder).
    + destruct (scan_folder fs folder _ _) as [q|] eqn:Hscan.
      * intros [= <-]. eapply scan_folder_isfile, Hscan.
      * destruct default as [d|]; [|discriminate].
        destruct (Py.truthy d); simpl; [|discriminate].
        destruct (isfile fs d) eqn:Hd; [now intros [= <-]|discriminate].
    + destruct default as [d|]; [|discriminate].
      destruct (Py.truthy d); simpl; [|discriminate].
      destruct (isfile fs d) eqn:Hd; [now intros [= <-]|discriminate].
Qed.

Lemma select_resume_returns_existing_file_witness :
  select_resume Sample.fs "Data Engineer" "resumes" (Some "resumes/default.pdf")
    = Some "resumes/data_engineer.pdf"
  /\ isfile Sample.fs "resumes/data_engineer.pdf" = true.
Proof.
  split; [vm_compute; reflexivity|].
  apply (select_resume_returns_existing_file Sample.fs "Data Engineer" "resumes"
           (Some "resumes/default.pdf")).
  vm_compute; reflexivity.
Defined.




(* ===================================================================== *)
(** ** Email validation *)
(* ===================================================================== *)

Section ValidationFacts.
Variable ev : EmailValidator.

Lemma truthy_strip_truthy s : Py.truthy (Py.strip s) = true -> Py.truthy s = true.
Proof. destruct s; simpl; [discriminate|reflexivity]. Qed.

(** A resolver that breaks ends in the syntax-only retry, which accepts. *)
Lemma validate_email_address_check_crashed address normalized m :
  Py.truthy (Py.strip address) = true ->
  ev_syntax ev address = Some normalized ->
  ev_deliverability ev address = CheckCrashed m ->
  validate_email_address ev address = (true, Some normalized).
Proof.
  intros Hne Hsyn Hdel. unfold validate_email_address, validate_email.
  rewrite Hne, (truthy_strip_truthy _ Hne), Hsyn, Hdel. reflexivity.
Qed.

Lemma validate_email_address_deliverable address normalized :
  Py.truthy (Py.strip address) = true ->
  ev_syntax ev address = Some normalized ->
  ev_deliverability ev address = Deliverable ->
  validate_email_address ev address = (true, Some normalized).
Proof.
  intros Hne Hsyn Hdel. unfold validate_email_address, validate_email.
  rewrite Hne, (truthy_strip_truthy _ Hne), Hsyn, Hdel. reflexivity.
Qed.

Lemma validate_email_address_bad_syntax address :
  ev_syntax ev address = None ->
  validate_email_address ev address = (false, None).
Proof.
  intros Hsyn. unfold validate_email_address, validate_email. rewrite Hsyn.
  now destruct (negb _ || negb _).
Qed.

(** The second component is a value exactly when the first is [true]. *)
Lemma validate_email_address_shape address :
  (exists v, validate_email_address ev address = (true, Some v))
  \/ validate_email_address ev address = (false, None).
Proof.
  unfold validate_email_address, validate_email.
  destruct (negb _ || negb _); [now right|].
  destruct (ev_syntax ev address) as [v|]; [|now right].
  destruct (ev_deliverability ev address); simpl; eauto.
Qed.
End ValidationFacts.

(** C2 does not hold of the code.  A syntactically valid address whose
    deliverability check fails is rejected: the failure is raised as
    [EmailUndeliverableError], an [EmailNotValidError], so the first handler
    answers [(False, None)] and the syntax-only retry is never reached. *)
Theorem validate_email_address_undeliverable_rejected
    (ev : EmailValidator) (address normalized : string) :
  Py.truthy (Py.strip address) = true ->
  ev_syntax ev address = Some normalized ->
  ev_deliverability ev address = Undeliverable ->
  validate_email ev address false = Ok normalized /\
  validate_email_address ev address = (false, None).
Proof.
  intros Hne Hsyn Hdel.
  unfold validate_email_address, validate_email.
  rewrite Hne, (truthy_strip_truthy _ Hne), Hsyn, Hdel. split; reflexivity.
Qed.

Lemma validate_email_address_undeliverable_rejected_witness :
  validate_email Sample.validator "dev@no-such-domain.example" false
    = Ok "dev@no-such-domain.example"
  /\ validate_email_address Sample.validator "dev@no-such-domain.example" = (false, None).
Proof.
  apply (validate_email_address_undeliverable_rejected Sample.validator
           "dev@no-such-domain.example" "dev@no-such-domain.example");
    vm_compute; reflexivity.
Defined.

(* ===================================================================== *)
(** ** Message composition *)
(* ===================================================================== *)

Section ComposeFacts.
Variable env : Env.

Lemma random_choice_single (x : string) (w : World) :
  exists w', random_choice env [x] w = (Ok x, w') /\ trace w' = trace w.
Proof.
  unfold random_choice. simpl length. rewrite Nat.mod_1_r.
  eexists. split; reflexivity.
Qed.

Lemma random_choice_ok (options : list string) (w : World) :
  exists x w', random_choice env options w = (Ok x, w') /\ trace w' = trace w.
Proof. unfold random_choice. do 2 eexists. split; reflexivity. Qed.

Lemma render_html_template_result job company name w :
  exists w', trace w' = trace w /\
    render_html_template env job company name w =
      match read_file (env_fs env) "templates/email_template.html" with
      | Ok html =>
          (Ok (Py.replace
                 (Py.replace
                    (Py.replace html "{{Name}}" (or_else name "Hiring Manager"))
                    "{{Company}}" (or_else (Some company) "your company"))
                 "{{JobRole}}" (or_else (Some job) "the role")), w')
      | Raise e => (Raise e, w')
      end.
Proof.
  unfold render_html_template, HTML_TEMPLATES.
  destruct (random_choice_single "templates/email_template.html" w) as (w' & Hrc & Htr).
  exists w'. split; [exact Htr|].
  unfold bind at 1. rewrite Hrc. unfold bind, lift_result, ret.
  now destruct (read_file _ _).
Qed.
End ComposeFacts.

Section BuildFacts.
Variable env : Env.
Variables (to_email : string) (to_name : option string) (job_role company : string).
Variables (resume_path : string) (cover_path : option string) (cover_is_pdf : bool).
Variables (sender_name sender_email where_found : string).

Let build : M Message :=
  build_email_message env to_email to_name job_role company resume_path
    cover_path cover_is_pdf sender_name sender_email where_found.

Lemma greeting_ok (w : World) :
  exists g w',
    (if opt_truthy to_name then ret ("Hello " ++ or_else to_name "" ++ ",")
     else random_choice env ["Hi,"; "Hello,"]) w = (Ok g, w')
    /\ trace w' = trace w.
Proof.
  destruct (opt_truthy to_name).
  - do 2 eexists. split; reflexivity.
  - apply random_choice_ok.
Qed.

(** Composition touches neither the trace nor anything but the random source. *)
Lemma build_email_message_trace (w : World) r w' :
  build w = (r, w') -> trace w' = trace w.
Proof.
  unfold build, build_email_message.
  destruct (greeting_ok w) as (g & w1 & Hg & Ht1).
  unfold bind at 1. rewrite Hg.
  destruct (render_html_template_result env job_role company to_name w1) as (w2 & Ht2 & Hr).
  unfold bind at 1. rewrite Hr.
  destruct (read_file (env_fs env) "templates/email_template.html") as [html|e].
  2:{ intros [= <- <-]. congruence. }
  unfold bind at 1, lift_result at 1.
  destruct (add_inline_images env inline_images []) as [related|e].
  2:{ intros [= <- <-]. congruence. }
  destruct (negb (isfile (env_fs env) resume_path)).
  { unfold raise. intros [= <- <-]. congruence. }
  unfold bind at 1, lift_result at 1.
  destruct (load_part env resume_path _ _) as [resume|e].
  2:{ intros [= <- <-]. congruence. }
  destruct cover_path as [cp|].
  - destruct (Py.truthy cp).
    + unfold bind, lift_result, ret.
      destruct (load_part env cp _ _); intros [= <- <-]; congruence.
    + unfold bind, ret. intros [= <- <-]. congruence.
  - unfold bind, ret. intros [= <- <-]. congruence.
Qed.


End BuildFacts.




(* ===================================================================== *)
(** ** The retry loop *)
(* ===================================================================== *)



Section RetryFacts.
Variable env : Env.
Variables (idx : nat) (email : string) (msg : Message).
Let delay := retry_delay_seconds (env_config env).





End RetryFacts.


(* ===================================================================== *)
(** ** One row of the send loop *)
(* ===================================================================== *)

Section RowFacts.
Variable env : Env.

(** [process_row], read through the notions used in the statements. *)
Lemma process_row_unfold idx df keys row w :
  rows df !! idx = Some row ->
  process_row env idx (df, keys) w =
    if skipped_by_status row then (Ok (df, keys), w)
    else if bool_decide (row_key row ∈ keys)
    then (Ok (mark df idx "SKIPPED_DUPLICATE", keys), w)
    else if negb (opt_truthy (row_resume env row))
    then (write_dataframe_to_sheet env (mark df idx "SKIPPED_NO_RESUME") ;;
          ret (mark df idx "SKIPPED_NO_RESUME", {[row_key row]} ∪ keys)) w
    else
      match compose_row env df row w with
      | (Raise _, w1) =>
          (write_dataframe_to_sheet env (mark df idx "FAILED_BUILD_MESSAGE") ;;
           ret (mark df idx "FAILED_BUILD_MESSAGE", {[row_key row]} ∪ keys)) w1
      | (Ok msg, w1) =>
          (let* res := send_with_retries env idx (field row "Email") msg in
           try_except
             (write_dataframe_to_sheet env
                (mark df idx (if res.2 then "SENT" else "FAILED")))
             (fun _ => ret tt) ;;
           ret (mark df idx (if res.2 then "SENT" else "FAILED"),
                {[row_key row]} ∪ keys)) w1
      end.
Proof.
  intros Hrow. unfold process_row. cbn [fst snd]. rewrite Hrow.
  unfold skipped_by_status.
  destruct (String.eqb (Py.upper (field row "Status")) "SENT"); [reflexivity|].
  simpl orb.
  destruct (Py.truthy (field row "Status") && negb _); [reflexivity|].
  fold (row_key row).
  destruct (bool_decide (row_key row ∈ keys)); [reflexivity|].
  fold (row_resume env row).
  destruct (negb (opt_truthy (row_resume env row))); [reflexivity|].
  unfold bind at 1, try_except at 1, bind at 1. fold (compose_row env df row).
  destruct (compose_row env df row w) as [[msg|e] w1]; reflexivity.
Qed.

Lemma process_row_missing idx df keys w :
  rows df !! idx = None ->
  process_row env idx (df, keys) w = (Ok (df, keys), w).
Proof. intros Hrow. unfold process_row. simpl. now rewrite Hrow. Qed.
End RowFacts.

Lemma mark_lookup df idx status row :
  rows df !! idx = Some row ->
  rows (mark df idx status) !! idx = Some (<["Status" := CStr status]> row).
Proof.
  intros Hrow. unfold mark, set_at. simpl.
  rewrite list_lookup_alter_eq. now rewrite Hrow.
Qed.

Lemma mark_lookup_ne df idx status j :
  idx <> j -> rows (mark df idx status) !! j = rows df !! j.
Proof. intros Hne. unfold mark, set_at. simpl. now apply list_lookup_alter_ne. Qed.

Lemma write_attempt_trace env df (w : World) :
  exists r w',
    try_except (write_dataframe_to_sheet env df) (fun _ => ret tt) w = (Ok r, w') /\
    trace w' = (trace w ++ [EvWriteSheet (sheet_values df)])%list.
Proof.
  unfold try_except, write_dataframe_to_sheet, sheet_update, ret.
  destruct (env_sheet env (sheet_writes w)); do 2 eexists; split; reflexivity.
Qed.



(** The second scenario of C1 on a concrete run: two attempts allowed, a
    transport that never accepts. *)
Example retries_exhausted :
  (process_row Sample.env_down 0 (Sample.table [Sample.backend_row], ∅) world0).1
    = Ok (mark (Sample.table [Sample.backend_row]) 0 "FAILED",
          {[row_key Sample.backend_row]} ∪ ∅)
  /\ trace (process_row Sample.env_down 0
              (Sample.table [Sample.backend_row], ∅) world0).2
     = [EvSend 0 1 "hr@acme.example"; EvSleep 30; EvSend 0 2 "hr@acme.example";
        EvWriteSheet [["JobRole"; "CompanyName"; "Email"; "Status"];
                      ["Backend Developer"; "Acme"; "hr@acme.example"; "FAILED"]]].
Proof. split; vm_compute; reflexivity. Qed.

(** Why the delay is assumed non-negative: [time.sleep] refuses a negative
    length, and the error leaves the loop and the run. *)
Example negative_delay_aborts :
  process_row Sample.env_negative_delay 0 (Sample.table [Sample.backend_row], ∅) world0
  = (Raise (ValueError "sleep length must be non-negative"),
     {| trace := [EvSend 0 1 "hr@acme.example"]; smtp_calls := 1;
        sheet_writes := 0; rand_draws := 2 |}).
Proof. vm_compute. reflexivity. Qed.

(* ===================================================================== *)
(** ** Reasoning about traces and results of computations *)
(* ===================================================================== *)

Section TraceLogic.
Context {A B : Type}.
Variable P : event -> Prop.

Lemma emits_ret (a : A) : emits P (ret a).
Proof. intros w r w' [= <- <-]. exists []. now rewrite app_nil_r. Qed.

Lemma emits_raise (e : exn) : emits P (@raise A e).
Proof. intros w r w' [= <- <-]. exists []. now rewrite app_nil_r. Qed.

Lemma emits_lift_result (x : result A) : emits P (lift_result x).
Proof. intros w r w' [= <- <-]. exists []. now rewrite app_nil_r. Qed.

Lemma emits_bind (m : M A) (k : A -> M B) :
  emits P m -> (forall a, emits P (k a)) -> emits P (bind m k).
Proof.
  intros Hm Hk w r w'. unfold bind.
  destruct (m w) as [[a|e] w1] eqn:Hmw.
  - intros Hkw. destruct (Hm _ _ _ Hmw) as (t1 & Ht1 & Hp1).
    destruct (Hk a _ _ _ Hkw) as (t2 & Ht2 & Hp2).
    exists (t1 ++ t2)%list. split; [now rewrite Ht2, Ht1, app_assoc|].
    now apply Forall_app.
  - intros [= <- <-]. exact (Hm _ _ _ Hmw).
Qed.

Lemma emits_try_except (m : M A) (h : exn -> M A) :
  emits P m -> (forall e, emits P (h e)) -> emits P (try_except m h).
Proof.
  intros Hm Hh w r w'. unfold try_except.
  destruct (m w) as [[a|e] w1] eqn:Hmw.
  - intros [= <- <-]. exact (Hm _ _ _ Hmw).
  - intros Hhw. destruct (Hm _ _ _ Hmw) as (t1 & Ht1 & Hp1).
    destruct (Hh e _ _ _ Hhw) as (t2 & Ht2 & Hp2).
    exists (t1 ++ t2)%list. split; [now rewrite Ht2, Ht1, app_assoc|].
    now apply Forall_app.
Qed.

Lemma emits_silent (m : M A) :
  (forall w r w', m w = (r, w') -> trace w' = trace w) -> emits P m.
Proof.
  intros Hm w r w' Hmw. exists []. rewrite app_nil_r. split; [eauto|constructor].
Qed.
End TraceLogic.

Lemma emits_weaken {A} (P Q : event -> Prop) (m : M A) :
  (forall e, P e -> Q e) -> emits P m -> emits Q m.
Proof.
  intros HPQ Hm w r w' Hmw. destruct (Hm _ _ _ Hmw) as (t & Ht & Hp).
  exists t. split; [exact Ht|]. eapply Forall_impl; eauto.
Qed.

Lemma emits_emit (P : event -> Prop) (e : event) : P e -> emits P (emit e).
Proof.
  intros He w r w' [= <- <-]. exists [e]. split; [reflexivity|].
  now repeat constructor.
Qed.

Lemma emits_sleep (P : event -> Prop) (d : Z) : P (EvSleep d) -> emits P (sleep d).
Proof.
  intros Hd. unfold sleep. destruct (d <? 0); [apply emits_raise|now apply emits_emit].
Qed.

Lemma emits_sheet_update (P : event -> Prop) env values :
  P (EvWriteSheet values) -> emits P (sheet_update env values).
Proof.
  intros Hv w r w'. unfold sheet_update.
  destruct (env_sheet env (sheet_writes w)); intros [= <- <-];
    (exists [EvWriteSheet values]; split; [reflexivity|now repeat constructor]).
Qed.

Lemma emits_send_email (P : event -> Prop) env msg conf :
  emits P (send_email env msg conf).
Proof.
  unfold send_email.
  destruct (negb (Py.truthy (conf_username conf))); [apply emits_raise|].
  destruct (negb (Py.truthy (conf_password conf))); [apply emits_raise|].
  destruct (conf_use_ssl conf); apply emits_silent; intros w r w';
    unfold smtp_session; destruct (env_smtp env _ _ _); now intros [= <- <-].
Qed.

Lemma emits_retry_loop env fuel idx email msg :
  forall a sent, emits (row_event idx) (retry_loop env fuel idx email msg a sent).
Proof.
  induction fuel as [|fuel IH]; intros a sent; simpl.
  - destruct (_ && _); apply emits_ret.
  - destruct (_ && _); [|apply emits_ret].
    apply emits_bind; [|intros s; apply IH].
    apply emits_try_except.
    + apply emits_bind; [now apply emits_emit|intros _].
      apply emits_bind; [apply emits_send_email|intros _; apply emits_ret].
    + intros e. apply emits_bind; [|intros _; apply emits_ret].
      destruct (_ <? _); [now apply emits_sleep|apply emits_ret].
Qed.

Lemma emits_send_with_retries env idx email msg :
  emits (row_event idx) (send_with_retries env idx email msg).
Proof.
  unfold send_with_retries. apply emits_bind; [apply emits_retry_loop|].
  intros [res|]; [apply emits_ret|apply emits_raise].
Qed.

Lemma emits_write env (P : event -> Prop) df :
  (forall v, P (EvWriteSheet v)) -> emits P (write_dataframe_to_sheet env df).
Proof. intros HP. apply emits_sheet_update, HP. Qed.

Lemma emits_compose_row (P : event -> Prop) env df row : emits P (compose_row env df row).
Proof.
  apply emits_silent. intros w r w'. unfold compose_row.
  apply build_email_message_trace.
Qed.

Lemma emits_process_row env idx st : emits (row_event idx) (process_row env idx st).
Proof.
  destruct st as [df keys]. intros w r w'.
  destruct (rows df !! idx) as [row|] eqn:Hrow.
  2:{ rewrite (process_row_missing env idx df keys w Hrow).
      intros [= <- <-]. exists []. now rewrite app_nil_r. }
  rewrite (process_row_unfold env idx df keys row w Hrow).
  destruct (skipped_by_status row).
  { intros [= <- <-]. exists []. now rewrite app_nil_r. }
  destruct (bool_decide _).
  { intros [= <- <-]. exists []. now rewrite app_nil_r. }
  destruct (negb _).
  { apply emits_bind; [now apply emits_write|intros _; apply emits_ret]. }
  destruct (compose_row env df row w) as [[msg|e] w1] eqn:Hc;
    (assert (Ht : trace w1 = trace w)
       by (unfold compose_row in Hc; eapply build_email_message_trace; exact Hc));
    rewrite <- Ht.
  - apply emits_bind; [apply emits_send_with_retries|intros res].
    apply emits_bind; [|intros _; apply emits_ret].
    apply emits_try_except; [now apply emits_write|intros _; apply emits_ret].
  - apply emits_bind; [now apply emits_write|intros _; apply emits_ret].
Qed.

Lemma bind_ok_inv {A B} (m : M A) (k : A -> M B) w b w' :
  bind m k w = (Ok b, w') ->
  exists a w1, m w = (Ok a, w1) /\ k a w1 = (Ok b, w').
Proof.
  unfold bind. destruct (m w) as [[a|e] w1]; [eauto|discriminate].
Qed.

(* ===================================================================== *)
(** ** What one iteration does to the loop state *)
(* ===================================================================== *)

Lemma process_row_outcome env idx df keys w st' w' :
  process_row env idx (df, keys) w = (Ok st', w') ->
  row_outcome idx df keys st'.
Proof.
  destruct (rows df !! idx) as [row|] eqn:Hrow.
  2:{ rewrite (process_row_missing env idx df keys w Hrow).
      intros [= <- <-]. now apply outcome_absent. }
  rewrite (process_row_unfold env idx df keys row w Hrow).
  destruct (skipped_by_status row) eqn:Hgate.
  { intros [= <- <-]. now apply outcome_skipped with row. }
  destruct (bool_decide (row_key row ∈ keys)) eqn:Hdup.
  { intros [= <- <-]. apply bool_decide_eq_true in Hdup.
    now apply outcome_duplicate with row. }
  apply bool_decide_eq_false in Hdup.
  destruct (negb _).
  { intros H. apply bind_ok_inv in H as (u & w1 & _ & [= <- <-]).
    apply outcome_settled; auto. unfold settled_statuses. set_solver. }
  destruct (compose_row env df row w) as [[msg|e] w1].
  - intros H. apply bind_ok_inv in H as (res & w2 & _ & H).
    apply bind_ok_inv in H as (u & w3 & _ & [= <- <-]).
    apply outcome_settled; auto. unfold settled_statuses.
    destruct res.2; set_solver.
  - intros H. apply bind_ok_inv in H as (u & w2 & _ & [= <- <-]).
    apply outcome_settled; auto. unfold settled_statuses. set_solver.
Qed.

Lemma same_but_status_refl r : same_but_status r r.
Proof. now intros col _. Qed.

Lemma same_but_status_insert r s : same_but_status r (<["Status" := s]> r).
Proof. intros col Hcol. now rewrite lookup_insert_ne. Qed.

Section OutcomeFacts.
Variables (idx : nat) (df : DataFrame) (keys : gset dedup_key).
Variables (df' : DataFrame) (keys' : gset dedup_key).
Hypothesis Hout : row_outcome idx df keys (df', keys').

Lemma outcome_columns : columns df' = columns df.
Proof. inversion Hout; subst; reflexivity. Qed.

Lemma outcome_length : length (rows df') = length (rows df).
Proof.
  inversion Hout; subst; try reflexivity; unfold mark, set_at; simpl;
    apply length_alter.
Qed.

Lemma outcome_other_rows j : idx <> j -> rows df' !! j = rows df !! j.
Proof.
  intros Hne. inversion Hout; subst; try reflexivity; now apply mark_lookup_ne.
Qed.

Lemma outcome_keys K :
  K ∈ keys' <->
  K ∈ keys \/ exists row, rows df !! idx = Some row /\
                          skipped_by_status row = false /\ row_key row = K.
Proof.
  inversion Hout; subst.
  - split; [auto|]. intros [?|(row & Hr & _)]; [assumption|congruence].
  - split; [auto|]. intros [?|(row' & Hr & Hg & _)]; [assumption|congruence].
  - split; [auto|]. intros [?|(row' & Hr & _ & <-)]; [assumption|].
    congruence.
  - rewrite elem_of_union, elem_of_singleton. split.
    + intros [->|?]; [right; eauto|now left].
    + intros [?|(row' & Hr & _ & <-)]; [now right|]. left. congruence.
Qed.

Lemma outcome_fields j row' :
  rows df' !! j = Some row' ->
  exists row, rows df !! j = Some row /\ same_but_status row row'.
Proof.
  intros Hj. destruct (decide (idx = j)) as [<-|Hne].
  - inversion Hout; subst;
      try (exists row'; split; [assumption|apply same_but_status_refl]).
    + match goal with Hr : rows df !! idx = Some _ |- _ =>
        rewrite (mark_lookup _ _ _ _ Hr) in Hj end.
      injection Hj as <-.
      eexists. split; [eassumption|apply same_but_status_insert].
    + match goal with Hr : rows df !! idx = Some _ |- _ =>
        rewrite (mark_lookup _ _ _ _ Hr) in Hj end.
      injection Hj as <-.
      eexists. split; [eassumption|apply same_but_status_insert].
  - rewrite (outcome_other_rows j Hne) in Hj.
    exists row'. split; [assumption|apply same_but_status_refl].
Qed.
End OutcomeFacts.

(* ===================================================================== *)
(** ** The send loop as a whole *)
(* ===================================================================== *)

Section LoopFacts.
Variable env : Env.

Lemma for_rows_app l1 l2 st w :
  for_rows env (l1 ++ l2) st w =
  (let* st' := for_rows env l1 st in for_rows env l2 st') w.
Proof.
  revert st w. induction l1 as [|i l1 IH]; intros st w; simpl.
  - reflexivity.
  - unfold bind at 1. unfold bind at 1. unfold bind at 1.
    destruct (process_row env i st w) as [[st1|e] w1]; [|reflexivity].
    rewrite IH. reflexivity.
Qed.

Lemma emits_for_rows idxs st : emits (rows_event idxs) (for_rows env idxs st).
Proof.
  revert st. induction idxs as [|i idxs IH]; intros st; simpl.
  - apply emits_ret.
  - apply emits_bind.
    + eapply emits_weaken; [|apply emits_process_row].
      intros [r a to| | |]; simpl; try tauto. intros ->. left.
    + intros st'. eapply emits_weaken; [|apply IH].
      intros [r a to| | |]; simpl; try tauto. intros ?. now right.
Qed.

Lemma for_rows_other_rows idxs : forall df keys w df' keys' w' j,
  for_rows env idxs (df, keys) w = (Ok (df', keys'), w') ->
  j ∉ idxs -> rows df' !! j = rows df !! j.
Proof.
  induction idxs as [|i idxs IH]; intros df keys w df' keys' w' j; simpl.
  - now intros [= <- <- <-].
  - intros H Hj. apply bind_ok_inv in H as ([df1 keys1] & w1 & Hstep & Hrest).
    apply process_row_outcome in Hstep.
    rewrite (IH _ _ _ _ _ _ j Hrest) by set_solver.
    apply (outcome_other_rows _ _ _ _ _ Hstep). set_solver.
Qed.

Lemma for_rows_fields idxs : forall df keys w df' keys' w',
  for_rows env idxs (df, keys) w = (Ok (df', keys'), w') ->
  columns df' = columns df /\
  length (rows df') = length (rows df) /\
  forall j row', rows df' !! j = Some row' ->
    exists row, rows df !! j = Some row /\ same_but_status row row'.
Proof.
  induction idxs as [|i idxs IH]; intros df keys w df' keys' w'; simpl.
  - intros [= <- <- <-]. repeat split. intros j row' Hj. exists row'.
    split; [assumption|apply same_but_status_refl].
  - intros H. apply bind_ok_inv in H as ([df1 keys1] & w1 & Hstep & Hrest).
    apply process_row_outcome in Hstep.
    destruct (IH _ _ _ _ _ _ Hrest) as (Hc & Hl & Hf).
    split; [now rewrite Hc, (outcome_columns _ _ _ _ _ Hstep)|].
    split; [now rewrite Hl, (outcome_length _ _ _ _ _ Hstep)|].
    intros j row' Hj. destruct (Hf j row' Hj) as (row1 & Hj1 & Hs1).
    destruct (outcome_fields _ _ _ _ _ Hstep j row1 Hj1) as (row & Hj0 & Hs0).
    exists row. split; [assumption|].
    intros col Hcol. now rewrite Hs1, Hs0.
Qed.

(** [processed_keys] after the rows [k, k+1, ..., k+m-1]: the keys it had,
    and the keys of those of these rows that passed the status gate. *)
Lemma for_rows_keys m : forall k df keys w df' keys' w' K,
  for_rows env (seq k m) (df, keys) w = (Ok (df', keys'), w') ->
  (K ∈ keys' <->
   K ∈ keys \/ exists i row, (k <= i < k + m)%nat /\ rows df !! i = Some row /\
                             skipped_by_status row = false /\ row_key row = K).
Proof.
  induction m as [|m IH]; intros k df keys w df' keys' w' K; simpl.
  - intros [= <- <- <-]. split; [auto|]. intros [?|(i & row & Hi & _)]; [assumption|lia].
  - intros H. apply bind_ok_inv in H as ([df1 keys1] & w1 & Hstep & Hrest).
    apply process_row_outcome in Hstep.
    rewrite (IH _ _ _ _ _ _ _ K Hrest), (outcome_keys _ _ _ _ _ Hstep K).
    split.
    + intros [[?|(row & Hr & Hg & Hk)]|(i & row & Hi & Hr & Hg & Hk)].
      * now left.
      * right. exists k, row. repeat split; auto; lia.
      * right. exists i, row. repeat split; auto; try lia.
        rewrite <- Hr. symmetry. apply (outcome_other_rows _ _ _ _ _ Hstep). lia.
    + intros [?|(i & row & Hi & Hr & Hg & Hk)]; [now left; left|].
      destruct (decide (i = k)) as [->|Hne].
      * left. right. eauto.
      * right. exists i, row. repeat split; auto; try lia.
        rewrite <- Hr. apply (outcome_other_rows _ _ _ _ _ Hstep). lia.
Qed.
End LoopFacts.

Lemma rows_event_no_send idxs t j :
  Forall (rows_event idxs) t -> j ∉ idxs -> forall a to, EvSend j a to ∉ t.
Proof.
  intros Hall Hj a to Hin. rewrite Forall_forall in Hall.
  apply Hall in Hin. simpl in Hin. contradiction.
Qed.

Lemma not_in_seq_before j : j ∉ seq 0 j.
Proof. rewrite elem_of_seq. lia. Qed.

Lemma not_in_seq_after j m : j ∉ seq (S j) m.
Proof. rewrite elem_of_seq. lia. Qed.

(** The run seen from row [j]: the rows before it, row [j] itself, the rows
    after it.  Either the run is aborted before row [j], or row [j] is
    processed in a state whose table still has the original row [j] and whose
    [processed_keys] are the keys of the earlier rows that passed the gate. *)
Lemma send_loop_around env df w j rj r w' :
  rows df !! j = Some rj ->
  send_loop env df w = (r, w') ->
  (exists e t, r = Raise e /\ trace w' = (trace w ++ t)%list /\
               Forall (rows_event (seq 0 j)) t)
  \/ exists df1 keys1 w1 t1 r2 w2,
       for_rows env (seq 0 j) (df, ∅) w = (Ok (df1, keys1), w1) /\
       trace w1 = (trace w ++ t1)%list /\ Forall (rows_event (seq 0 j)) t1 /\
       rows df1 !! j = Some rj /\
       (forall K, K ∈ keys1 <->
          exists i row, (i < j)%nat /\ rows df !! i = Some row /\
                        skipped_by_status row = false /\ row_key row = K) /\
       process_row env j (df1, keys1) w1 = (r2, w2) /\
       match r2 with
       | Raise e => r = Raise e /\ w' = w2
       | Ok st2 =>
           exists t3, trace w' = (trace w2 ++ t3)%list /\
             Forall (rows_event (seq (S j) (length (rows df) - S j))) t3 /\
             forall df' keys', r = Ok (df', keys') -> rows df' !! j = rows st2.1 !! j
       end.
Proof.
  intros Hj. unfold send_loop.
  assert (Hlen : (j < length (rows df))%nat) by (eapply lookup_lt_Some; eauto).
  replace (length (rows df)) with (j + S (length (rows df) - S j))%nat at 1 by lia.
  rewrite seq_app. simpl seq. rewrite for_rows_app. unfold bind at 1.
  destruct (for_rows env (seq 0 j) (df, ∅) w) as [[[df1 keys1]|e] w1] eqn:H1.
  2:{ intros [= <- <-]. left. destruct (emits_for_rows env _ _ _ _ _ H1) as (t & Ht & Hp).
      eauto. }
  destruct (emits_for_rows env _ _ _ _ _ H1) as (t1 & Ht1 & Hp1).
  simpl for_rows. unfold bind at 1.
  destruct (process_row env j (df1, keys1) w1) as [r2 w2] eqn:H2.
  intros H3. right. exists df1, keys1, w1, t1, r2, w2.
  split; [reflexivity|]. split; [exact Ht1|]. split; [exact Hp1|].
  split.
  { rewrite (for_rows_other_rows env _ _ _ _ _ _ _ j H1); [exact Hj|].
    apply not_in_seq_before. }
  split.
  { intros K. rewrite (for_rows_keys env _ _ _ _ _ _ _ _ K H1).
    split.
    - intros [Hk|(i & row & Hi & Hrest)]; [now apply not_elem_of_empty in Hk|].
      exists i, row. split; [lia|exact Hrest].
    - intros (i & row & Hi & Hrest). right. exists i, row. split; [lia|exact Hrest]. }
  split; [exact H2|].
  destruct r2 as [[df2 keys2]|e].
  - destruct (emits_for_rows env _ _ _ _ _ H3) as (t3 & Ht3 & Hp3).
    exists t3. split; [exact Ht3|]. split; [exact Hp3|].
    intros df' keys' ->. simpl.
    apply (for_rows_other_rows env _ _ _ _ _ _ _ j H3), not_in_seq_after.
  - now injection H3 as <- <-.
Qed.

Lemma process_row_gate env idx df keys row w :
  rows df !! idx = Some row ->
  skipped_by_status row = true ->
  process_row env idx (df, keys) w = (Ok (df, keys), w).
Proof.
  intros Hrow Hgate. now rewrite (process_row_unfold env idx df keys row w Hrow), Hgate.
Qed.

Lemma process_row_duplicate env idx df keys row w :
  rows df !! idx = Some row ->
  skipped_by_status row = false ->
  row_key row ∈ keys ->
  process_row env idx (df, keys) w = (Ok (mark df idx "SKIPPED_DUPLICATE", keys), w).
Proof.
  intros Hrow Hgate Hdup.
  rewrite (process_row_unfold env idx df keys row w Hrow), Hgate.
  now rewrite bool_decide_eq_true_2.
Qed.

(** C3.  In one run of the send loop, let rows [i < j] both pass the status
    gate and have the same dedup key (the stripped, lower-cased email, job
    role and company).  Then no send attempt for row [j] is ever recorded,
    and if the run completes row [j] ends with Status SKIPPED_DUPLICATE and
    is otherwise unchanged.  Processing a row whose key is already in
    [processed_keys] leaves the world as it is: no SMTP session, no sleep,
    no write. *)
Theorem in_run_duplicate_is_skipped
    (env : Env) (df : DataFrame) (w : World) (i j : nat) (ri rj : gmap string cell)
    (r : result (DataFrame * gset dedup_key)) (w' : World) :
  (i < j)%nat ->
  rows df !! i = Some ri ->
  rows df !! j = Some rj ->
  skipped_by_status ri = false ->
  skipped_by_status rj = false ->
  row_key ri = row_key rj ->
  send_loop env df w = (r, w') ->
  (exists t, trace w' = (trace w ++ t)%list /\ forall a to, EvSend j a to ∉ t) /\
  (forall df' keys', r = Ok (df', keys') ->
     rows df' !! j = Some (<["Status" := CStr "SKIPPED_DUPLICATE"]> rj)) /\
  (forall df1 keys1 w1,
     rows df1 !! j = Some rj -> row_key rj ∈ keys1 ->
     process_row env j (df1, keys1) w1
       = (Ok (mark df1 j "SKIPPED_DUPLICATE", keys1), w1)).
Proof.
  intros Hij Hi Hj Hgi Hgj Hkey Hrun.
  assert (Hstep : forall df1 keys1 w1,
             rows df1 !! j = Some rj -> row_key rj ∈ keys1 ->
             process_row env j (df1, keys1) w1
             = (Ok (mark df1 j "SKIPPED_DUPLICATE", keys1), w1)).
  { intros df1 keys1 w1 Hj1 Hin. now apply process_row_duplicate with rj. }
  destruct (send_loop_around env df w j rj r w' Hj Hrun)
    as [(e & t & -> & Ht & Hp)
       |(df1 & keys1 & w1 & t1 & r2 & w2 & H1 & Ht1 & Hp1 & Hj1 & Hkeys & H2 & H3)].
  - split; [|split; [discriminate|exact Hstep]].
    exists t. split; [exact Ht|].
    apply (rows_event_no_send _ _ _ Hp), not_in_seq_before.
  - assert (Hin : row_key rj ∈ keys1).
    { apply Hkeys. exists i, ri. auto. }
    rewrite (Hstep df1 keys1 w1 Hj1 Hin) in H2. injection H2 as <- <-.
    destruct H3 as (t3 & Ht3 & Hp3 & Hfinal).
    split; [|split; [|exact Hstep]].
    + exists (t1 ++ t3)%list. split; [now rewrite Ht3, Ht1, app_assoc|].
      intros a to Hin'. apply elem_of_app in Hin' as [Hin'|Hin'].
      * revert Hin'. apply (rows_event_no_send _ _ _ Hp1), not_in_seq_before.
      * revert Hin'. apply (rows_event_no_send _ _ _ Hp3), not_in_seq_after.
    + intros df' keys' Hr. rewrite (Hfinal df' keys' Hr). simpl.
      now apply mark_lookup.
Qed.

Lemma in_run_duplicate_is_skipped_witness :
  exists t,
    trace (send_loop Sample.env_accepting
             (Sample.table [Sample.backend_row; Sample.backend_row_again]) world0).2
    = (trace world0 ++ t)%list
    /\ forall a to, EvSend 1 a to ∉ t.
Proof.
  apply (proj1 (in_run_duplicate_is_skipped Sample.env_accepting
                  (Sample.table [Sample.backend_row; Sample.backend_row_again])
                  world0 0 1 Sample.backend_row Sample.backend_row_again
                  (send_loop Sample.env_accepting
                     (Sample.table [Sample.backend_row; Sample.backend_row_again]) world0).1
                  (send_loop Sample.env_accepting
                     (Sample.table [Sample.backend_row; Sample.backend_row_again]) world0).2
                  ltac:(lia) eq_refl eq_refl
                  ltac:(vm_compute; reflexivity) ltac:(vm_compute; reflexivity)
                  ltac:(vm_compute; reflexivity)
                  ltac:(apply surjective_pairing))).
Defined.

(* ===================================================================== *)
(** ** The status gate *)
(* ===================================================================== *)






(* ===================================================================== *)
(** ** Rows whose earlier twins were skipped *)
(* ===================================================================== *)









(* ===================================================================== *)
(** ** Persistence of the outcomes *)
(* ===================================================================== *)

(** A row that got past the gate and the duplicate test has the table
    written right after its status is set. *)
Lemma process_row_settled_persists env idx df keys row w df' keys' w' :
  rows df !! idx = Some row ->
  skipped_by_status row = false ->
  row_key row ∉ keys ->
  process_row env idx (df, keys) w = (Ok (df', keys'), w') ->
  exists t, trace w' = (trace w ++ t ++ [EvWriteSheet (sheet_values df')])%list.
Proof.
  intros Hrow Hgate Hfresh.
  rewrite (process_row_unfold env idx df keys row w Hrow), Hgate.
  rewrite bool_decide_eq_false_2 by exact Hfresh.
  assert (Hwrite : forall d u v u', write_dataframe_to_sheet env d u = (Ok v, u') ->
                     trace u' = (trace u ++ [EvWriteSheet (sheet_values d)])%list).
  { intros d u v u'. unfold write_dataframe_to_sheet, sheet_update.
    destruct (env_sheet env (sheet_writes u)); [discriminate|]. now intros [= <- <-]. }
  destruct (negb _).
  { intros H. apply bind_ok_inv in H as (u & w1 & Hw & [= <- <- <-]).
    exists []. apply (Hwrite _ _ _ _ Hw). }
  destruct (compose_row env df row w) as [[msg|e] w1] eqn:Hc;
    (assert (Ht : trace w1 = trace w)
       by (unfold compose_row in Hc; eapply build_email_message_trace; exact Hc)).
  - intros H. apply bind_ok_inv in H as (res & w2 & Hsend & H).
    apply bind_ok_inv in H as (u & w3 & Hw & [= <- <- <-]).
    destruct (emits_send_with_retries env idx _ msg _ _ _ Hsend) as (t & Ht2 & _).
    destruct (write_attempt_trace env (mark df idx (if res.2 then "SENT" else "FAILED")) w2)
      as (u' & w3' & Hw' & Ht3).
    rewrite Hw in Hw'. injection Hw' as <- <-.
    exists t. now rewrite Ht3, Ht2, Ht, <- app_assoc.
  - intros H. apply bind_ok_inv in H as (u & w2 & Hw & [= <- <- <-]).
    exists []. rewrite (Hwrite _ _ _ _ Hw), Ht. reflexivity.
Qed.

(** C5 does not hold of the code for the SKIPPED_DUPLICATE outcome.  In this
    run the first row is sent and the table is written; the second row is a
    duplicate and is marked SKIPPED_DUPLICATE in memory, but no write follows:
    the run ends with the sheet still showing the old status of that row. *)
Theorem duplicate_status_is_not_persisted :
  exists df',
    (process_sheet_and_send Sample.env_accepting
       (Sample.table [Sample.backend_row; Sample.backend_row_again]) world0).1 = Ok df' /\
    sheet_values df' =
      [["JobRole"; "CompanyName"; "Email"; "Status"];
       ["Backend Developer"; "Acme"; "hr@acme.example"; "SENT"];
       ["backend developer "; "ACME"; "HR@acme.example"; "SKIPPED_DUPLICATE"]] /\
    trace (process_sheet_and_send Sample.env_accepting
             (Sample.table [Sample.backend_row; Sample.backend_row_again]) world0).2 =
      [EvSend 0 1 "hr@acme.example";
       EvWriteSheet
         [["JobRole"; "CompanyName"; "Email"; "Status"];
          ["Backend Developer"; "Acme"; "hr@acme.example"; "SENT"];
          ["backend developer "; "ACME"; "HR@acme.example"; "pending"]]].
Proof.
  eexists. split; [vm_compute; reflexivity|].
  split; vm_compute; reflexivity.
Qed.

(* ===================================================================== *)
(** ** The validation pass *)
(* ===================================================================== *)

Section ValidationPass.
Variable env : Env.
Let ev := env_validator env.




End ValidationPass.

Section CleanFacts.
Variable env : Env.
Let ev := env_validator env.





End CleanFacts.



(* ===================================================================== *)
(** ** Further facts about the run *)
(* ===================================================================== *)

(** The fuel given to the retry loop is never used up. *)
Lemma retry_loop_total env idx email msg fuel : forall a sent w,
  (Z.to_nat (max_retries (env_config env) - a) <= fuel)%nat ->
  (retry_loop env fuel idx email msg a sent w).1 <> Ok None.
Proof.
  induction fuel as [|fuel IH]; intros a sent w Hfuel; simpl.
  - destruct (a <? max_retries (env_config env)) eqn:Hlt; simpl.
    + apply Z.ltb_lt in Hlt. lia.
    + discriminate.
  - destruct ((a <? max_retries (env_config env)) && negb sent) eqn:Hguard;
      [|discriminate].
    unfold bind at 1.
    destruct (try_except _ _ w) as [[s|e] w1]; [|discriminate].
    apply IH. lia.
Qed.

Lemma field_status_marked row status :
  field (<["Status" := CStr status]> row) "Status" = Py.strip status.
Proof. unfold field, row_get. now rewrite lookup_insert_eq. Qed.

Lemma skipped_by_status_nonempty row :
  skipped_by_status row = true -> field row "Status" <> "".
Proof.
  unfold skipped_by_status. intros H Hempty. rewrite Hempty in H. discriminate.
Qed.

(** After a run of the send loop that completes, no row is left with an
    empty Status. *)
Lemma send_loop_every_row_has_status env df w df' keys' w' j row' :
  send_loop env df w = (Ok (df', keys'), w') ->
  rows df' !! j = Some row' ->
  field row' "Status" <> "".
Proof.
  intros Hrun Hj'.
  destruct (for_rows_fields env _ _ _ _ _ _ _ Hrun) as (_ & _ & Hfields).
  destruct (Hfields j row' Hj') as (rj & Hj & _).
  destruct (send_loop_around env df w j rj _ w' Hj Hrun)
    as [(e & t & [=] & _)
       |(df1 & keys1 & w1 & t1 & r2 & w2 & H1 & Ht1 & Hp1 & Hj1 & Hkeys & H2 & H3)].
  destruct r2 as [[df2 keys2]|e]; [|destruct H3 as [[=] _]].
  destruct H3 as (t3 & _ & _ & Hfinal).
  specialize (Hfinal df' keys' eq_refl). simpl in Hfinal. rewrite Hfinal in Hj'.
  pose proof (process_row_outcome env j df1 keys1 w1 _ w2 H2) as Hout.
  inversion Hout; subst.
  - congruence.
  - assert (row = rj) as -> by congruence. assert (row' = rj) as -> by congruence.
    now apply skipped_by_status_nonempty.
  - rewrite (mark_lookup _ _ _ _ Hj1) in Hj'. injection Hj' as <-.
    rewrite field_status_marked. vm_compute. discriminate.
  - rewrite (mark_lookup _ _ _ _ Hj1) in Hj'. injection Hj' as <-.
    rewrite field_status_marked.
    match goal with Hin : status ∈ settled_statuses |- _ =>
      unfold settled_statuses in Hin;
      repeat (apply elem_of_cons in Hin as [->|Hin]; [vm_compute; discriminate|]);
      inversion Hin
    end.
Qed.

(* ===================================================================== *)
(** ** Keys: case and surrounding blanks do not matter *)
(* ===================================================================== *)

Section CaseFacts.

Lemma isspace_lower_char c : Py.isspace (Py.lower_char c) = Py.isspace c.
Proof. destruct c as [[] [] [] [] [] [] [] []]; reflexivity. Qed.

Lemma isspace_upper_char c : Py.isspace (Py.upper_char c) = Py.isspace c.
Proof. destruct c as [[] [] [] [] [] [] [] []]; reflexivity. Qed.

Lemma lower_char_idem c : Py.lower_char (Py.lower_char c) = Py.lower_char c.
Proof. destruct c as [[] [] [] [] [] [] [] []]; reflexivity. Qed.

Lemma lower_upper_char c : Py.lower_char (Py.upper_char c) = Py.lower_char c.
Proof. destruct c as [[] [] [] [] [] [] [] []]; reflexivity. Qed.

Lemma lower_char_not_upper c : is_upper_char (Py.lower_char c) = false.
Proof. destruct c as [[] [] [] [] [] [] [] []]; reflexivity. Qed.

Variable f : ascii -> ascii.
Hypothesis f_space : forall c, Py.isspace (f c) = Py.isspace c.

Lemma truthy_smap s : Py.truthy (Py.smap f s) = Py.truthy s.
Proof. now destruct s. Qed.

Lemma lstrip_smap s : Py.lstrip (Py.smap f s) = Py.smap f (Py.lstrip s).
Proof.
  induction s as [|c s IH]; [reflexivity|]. simpl. rewrite f_space.
  destruct (Py.isspace c); [exact IH|reflexivity].
Qed.

Lemma rstrip_smap s : Py.rstrip (Py.smap f s) = Py.smap f (Py.rstrip s).
Proof.
  induction s as [|c s IH]; [reflexivity|]. simpl. rewrite f_space, IH, truthy_smap.
  now destruct (Py.isspace c && negb (Py.truthy (Py.rstrip s))).
Qed.

Lemma strip_smap s : Py.strip (Py.smap f s) = Py.smap f (Py.strip s).
Proof. unfold Py.strip. now rewrite lstrip_smap, rstrip_smap. Qed.
End CaseFacts.

Lemma smap_smap f g s : Py.smap f (Py.smap g s) = Py.smap (fun c => f (g c)) s.
Proof. induction s as [|c s IH]; [reflexivity|]. simpl. now rewrite IH. Qed.

Lemma smap_ext f g s : (forall c, f c = g c) -> Py.smap f s = Py.smap g s.
Proof. intros H. induction s as [|c s IH]; [reflexivity|]. simpl. now rewrite H, IH. Qed.

Lemma lower_lower s : Py.lower (Py.lower s) = Py.lower s.
Proof. unfold Py.lower. rewrite smap_smap. apply smap_ext, lower_char_idem. Qed.

Lemma lower_upper s : Py.lower (Py.upper s) = Py.lower s.
Proof. unfold Py.lower, Py.upper. rewrite smap_smap. apply smap_ext, lower_upper_char. Qed.

Lemma rstrip_idem s : Py.rstrip (Py.rstrip s) = Py.rstrip s.
Proof.
  induction s as [|c s IH]; [reflexivity|]. simpl.
  destruct (Py.isspace c && negb (Py.truthy (Py.rstrip s))) eqn:H; [reflexivity|].
  simpl. now rewrite IH, H.
Qed.

Lemma lstrip_first s :
  match first_char (Py.lstrip s) with Some c => Py.isspace c = false | None => True end.
Proof.
  induction s as [|c s IH]; [exact I|]. simpl.
  destruct (Py.isspace c) eqn:H; [exact IH|exact H].
Qed.

Lemma lstrip_fixed s :
  match first_char s with Some c => Py.isspace c = false | None => True end ->
  Py.lstrip s = s.
Proof. destruct s as [|c s]; [reflexivity|]. simpl. now intros ->. Qed.

Lemma rstrip_first s :
  match first_char s with Some c => Py.isspace c = false | None => True end ->
  match first_char (Py.rstrip s) with Some c => Py.isspace c = false | None => True end.
Proof. destruct s as [|c s]; [trivial|]. simpl. intros H. now rewrite H. Qed.

Lemma strip_idem s : Py.strip (Py.strip s) = Py.strip s.
Proof.
  unfold Py.strip.
  rewrite (lstrip_fixed (Py.rstrip (Py.lstrip s))).
  - apply rstrip_idem.
  - apply rstrip_first, lstrip_first.
Qed.

Lemma strip_first s :
  match first_char (Py.strip s) with Some c => Py.isspace c = false | None => True end.
Proof. unfold Py.strip. apply rstrip_first, lstrip_first. Qed.

Lemma rstrip_last s :
  match last_char (Py.rstrip s) with Some c => Py.isspace c = false | None => True end.
Proof.
  induction s as [|c s IH]; [exact I|]. simpl.
  destruct (Py.isspace c && negb (Py.truthy (Py.rstrip s))) eqn:H; [exact I|].
  simpl. destruct (Py.rstrip s) as [|d r] eqn:Hr.
  - simpl in H. rewrite andb_true_r in H. exact H.
  - exact IH.
Qed.

Lemma normalize_key_eq s : normalize_key s = Py.lower (Py.strip s).
Proof. unfold normalize_key. now destruct s. Qed.

Lemma string_forall_smap P f s :
  (forall c, P (f c) = true) -> string_forall P (Py.smap f s) = true.
Proof. intros H. induction s as [|c s IH]; [reflexivity|]. simpl. now rewrite H, IH. Qed.

Lemma first_char_smap f s : first_char (Py.smap f s) = option_map f (first_char s).
Proof. now destruct s. Qed.

Lemma last_char_smap f s : last_char (Py.smap f s) = option_map f (last_char s).
Proof.
  induction s as [|c s IH]; [reflexivity|]. simpl.
  destruct s as [|d s]; [reflexivity|]. exact IH.
Qed.

Lemma rstrip_app_space s : Py.rstrip (s ++ " ") = Py.rstrip s.
Proof.
  induction s as [|c s IH]; [reflexivity|].
  change (String c s ++ " ") with (String c (s ++ " ")).
  simpl. now rewrite IH.
Qed.

Lemma lstrip_app_space s :
  Py.lstrip (s ++ " ") = Py.lstrip s ++ " "
  \/ (Py.lstrip s = "" /\ Py.lstrip (s ++ " ") = "").
Proof.
  induction s as [|c s IH]; [now right|].
  change (String c s ++ " ") with (String c (s ++ " ")). simpl.
  destruct (Py.isspace c); [exact IH|now left].
Qed.

Lemma strip_padded s : Py.strip (" " ++ s ++ " ") = Py.strip s.
Proof.
  unfold Py.strip. change (Py.lstrip (" " ++ s ++ " ")) with (Py.lstrip (s ++ " ")).
  destruct (lstrip_app_space s) as [->|[-> ->]]; [|reflexivity].
  apply rstrip_app_space.
Qed.

(** X1.  [normalize_key] yields a canonical key: applying it again changes
    nothing, and the key of a string does not depend on the letter case of
    the string nor on blanks around it. *)
Theorem normalize_key_canonical (s : string) :
  normalize_key (normalize_key s) = normalize_key s /\
  normalize_key (Py.upper s) = normalize_key s /\
  normalize_key (Py.lower s) = normalize_key s /\
  normalize_key (Py.strip s) = normalize_key s /\
  normalize_key (" " ++ s ++ " ") = normalize_key s.
Proof.
  rewrite !normalize_key_eq. repeat split.
  - unfold Py.lower at 2. rewrite (strip_smap _ isspace_lower_char).
    fold (Py.lower (Py.strip (Py.strip s))). now rewrite lower_lower, strip_idem.
  - unfold Py.upper. rewrite (strip_smap _ isspace_upper_char).
    fold (Py.upper (Py.strip s)). apply lower_upper.
  - unfold Py.lower at 2. rewrite (strip_smap _ isspace_lower_char).
    fold (Py.lower (Py.strip s)). apply lower_lower.
  - now rewrite strip_idem.
  - now rewrite strip_padded.
Qed.

(** X2.  A normalized key holds no uppercase ASCII letter and neither starts
    nor ends with a blank. *)
Theorem normalize_key_shape (s : string) :
  string_forall (fun c => negb (is_upper_char c)) (normalize_key s) = true /\
  match first_char (normalize_key s) with
  | Some c => Py.isspace c = false
  | None => True
  end /\
  match last_char (normalize_key s) with
  | Some c => Py.isspace c = false
  | None => True
  end.
Proof.
  rewrite normalize_key_eq. split; [|split].
  - apply string_forall_smap. intros c. now rewrite lower_char_not_upper.
  - unfold Py.lower. rewrite first_char_smap.
    pose proof (strip_first s) as H.
    destruct (first_char (Py.strip s)); [|exact I]. simpl. now rewrite isspace_lower_char.
  - unfold Py.lower. rewrite last_char_smap. unfold Py.strip.
    pose proof (rstrip_last (Py.lstrip s)) as H.
    destruct (last_char (Py.rstrip (Py.lstrip s))); [|exact I].
    simpl. now rewrite isspace_lower_char.
Qed.

(** X3.  Attachment selection looks at the job role through its key only:
    the role in another letter case, or with blanks around it, selects the
    same resume and the same cover letter. *)
Theorem selection_ignores_case_and_blanks
    (fs : filesystem) (job_role folder : string) (default : option string) :
  select_resume fs (Py.upper job_role) folder default
    = select_resume fs job_role folder default /\
  select_resume fs (" " ++ job_role ++ " ") folder default
    = select_resume fs job_role folder default /\
  select_cover_letter fs (Py.upper job_role) = select_cover_letter fs job_role /\
  select_cover_letter fs (" " ++ job_role ++ " ") = select_cover_letter fs job_role.
Proof.
  destruct (normalize_key_canonical job_role) as (_ & Hup & _ & _ & Hpad).
  unfold select_resume, select_cover_letter. now rewrite Hup, Hpad.
Qed.

(* ===================================================================== *)
(** ** More on attachment selection *)
(* ===================================================================== *)

Section SelectMore.
Variable fs : filesystem.

Lemma scan_folder_none folder key fnames :
  scan_folder fs folder key fnames = None <->
  (forall fname, fname ∈ fnames ->
     isfile fs (Py.path_join folder fname) = true ->
     heuristic_match key fname = false).
Proof.
  split; [|apply scan_folder_no_match].
  induction fnames as [|f rest IH]; simpl.
  - intros _ fname Hin. inversion Hin.
  - destruct (isfile fs (Py.path_join folder f)) eqn:Hf; simpl.
    + destruct (heuristic_match key f) eqn:Hm; [discriminate|].
      intros Hnone fname Hin Hfile. apply elem_of_cons in Hin as [->|Hin]; [exact Hm|].
      now apply IH.
    + intros Hnone fname Hin Hfile. apply elem_of_cons in Hin as [->|Hin]; [congruence|].
      now apply IH.
Qed.

Lemma scan_folder_first folder key fnames p :
  scan_folder fs folder key fnames = Some p <->
  exists before fname after,
    fnames = (before ++ fname :: after)%list /\
    p = Py.path_join folder fname /\
    isfile fs p = true /\ heuristic_match key fname = true /\
    forall f, f ∈ before ->
      isfile fs (Py.path_join folder f) = true -> heuristic_match key f = false.
Proof.
  induction fnames as [|f rest IH]; simpl.
  - split; [discriminate|]. intros (before & fname & after & H & _).
    now destruct before.
  - destruct (isfile fs (Py.path_join folder f)) eqn:Hf; simpl.
    + destruct (heuristic_match key f) eqn:Hm.
      * split.
        { intros [= <-]. exists [], f, rest. repeat split; auto.
          intros g Hg. inversion Hg. }
        intros ([|b before] & fname & after & Heq & -> & Hfile & Hmatch & Hbefore).
        { now injection Heq as <- _. }
        injection Heq as <- _.
        rewrite (Hbefore f) in Hm; [discriminate|left|exact Hf].
      * rewrite IH. split.
        { intros (before & fname & after & -> & -> & Hfile & Hmatch & Hbefore).
          exists (f :: before), fname, after. repeat split; auto.
          intros g Hg Hgf. apply elem_of_cons in Hg as [->|Hg]; [exact Hm|].
          now apply Hbefore. }
        intros ([|b before] & fname & after & Heq & -> & Hfile & Hmatch & Hbefore).
        { injection Heq as <- _. congruence. }
        injection Heq as <- ->. exists before, fname, after. repeat split; auto.
        intros g Hg. apply Hbefore. now right.
    + rewrite IH. split.
      { intros (before & fname & after & -> & -> & Hfile & Hmatch & Hbefore).
        exists (f :: before), fname, after. repeat split; auto.
        intros g Hg Hgf. apply elem_of_cons in Hg as [->|Hg]; [congruence|].
        now apply Hbefore. }
      intros ([|b before] & fname & after & Heq & -> & Hfile & Hmatch & Hbefore).
      { injection Heq as <- _. congruence. }
      injection Heq as <- ->. exists before, fname, after. repeat split; auto.
      intros g Hg. apply Hbefore. now right.
Qed.
End SelectMore.

(** X4.  [select_resume] gives up exactly when nothing is available: there is
    no mapped path that is a file, the folder (if it is a directory) holds no
    regular file that passes the name test, and the default is absent, empty
    or not a file. *)
Theorem select_resume_none_iff
    (fs : filesystem) (job_role folder : string) (default : option string) :
  select_resume fs job_role folder default = None <->
  (forall p, RESUME_MAP !! normalize_key job_role = Some p -> isfile fs p = false) /\
  (isdir fs folder = true ->
   forall fname, fname ∈ listdir fs folder ->
     isfile fs (Py.path_join folder fname) = true ->
     heuristic_match (normalize_key job_role) fname = false) /\
  (forall d, default = Some d -> Py.truthy d && isfile fs d = false).
Proof.
  set (key := normalize_key job_role).
  set (mapped := match RESUME_MAP !! key with
                 | Some p => if isfile fs p then Some p else None
                 | None => None
                 end).
  set (scanned := if isdir fs folder
                  then scan_folder fs folder key (listdir fs folder) else None).
  set (fallback := match default with
                   | Some d => if Py.truthy d && isfile fs d then Some d else None
                   | None => None
                   end).
  assert (Hsel : select_resume fs job_role folder default = None <->
                 mapped = None /\ scanned = None /\ fallback = None).
  { unfold select_resume. fold key. fold mapped. fold scanned. fold fallback.
    destruct mapped; [split; [discriminate|intros [? _]; discriminate]|].
    destruct scanned; [split; [discriminate|intros (_ & ? & _); discriminate]|].
    tauto. }
  assert (Hmapped : mapped = None <->
                    forall p, RESUME_MAP !! key = Some p -> isfile fs p = false).
  { unfold mapped. destruct (RESUME_MAP !! key) as [m|].
    - destruct (isfile fs m) eqn:Hm.
      + split; [discriminate|]. intros H. specialize (H m eq_refl). congruence.
      + split; [|reflexivity]. now intros _ p [= <-].
    - split; [|reflexivity]. intros _ p. discriminate. }
  assert (Hscanned : scanned = None <->
            (isdir fs folder = true ->
             forall fname, fname ∈ listdir fs folder ->
               isfile fs (Py.path_join folder fname) = true ->
               heuristic_match key fname = false)).
  { unfold scanned. destruct (isdir fs folder).
    - rewrite scan_folder_none. split; [auto|]. intros H. now apply H.
    - split; [|reflexivity]. intros _. discriminate. }
  assert (Hfallback : fallback = None <->
            forall d, default = Some d -> Py.truthy d && isfile fs d = false).
  { unfold fallback. destruct default as [d|].
    - destruct (Py.truthy d && isfile fs d) eqn:Hd.
      + split; [discriminate|]. intros H. specialize (H d eq_refl). congruence.
      + split; [|reflexivity]. now intros _ d' [= <-].
    - split; [|reflexivity]. intros _ d. discriminate. }
  rewrite Hsel, Hmapped, Hscanned, Hfallback. reflexivity.
Qed.

(** X5.  When the exact mapping gives no existing file and the folder is
    scanned, the resume is the first entry, in the order [os.listdir]
    returned them, that is a regular file and passes the name test: entries
    listed before it are no such file. *)
Theorem select_resume_heuristic_first_match
    (fs : filesystem) (job_role folder : string) (default : option string)
    (before after : list string) (fname : string) :
  (forall p, RESUME_MAP !! normalize_key job_role = Some p -> isfile fs p = false) ->
  isdir fs folder = true ->
  listdir fs folder = (before ++ fname :: after)%list ->
  isfile fs (Py.path_join folder fname) = true ->
  heuristic_match (normalize_key job_role) fname = true ->
  (forall f, f ∈ before ->
     isfile fs (Py.path_join folder f) = true ->
     heuristic_match (normalize_key job_role) f = false) ->
  select_resume fs job_role folder default = Some (Py.path_join folder fname).
Proof.
  intros Hmap Hdir Hlist Hfile Hmatch Hbefore. unfold select_resume.
  assert (Hscan : scan_folder fs folder (normalize_key job_role) (listdir fs folder)
                  = Some (Py.path_join folder fname)).
  { apply scan_folder_first. exists before, fname, after. auto. }
  rewrite Hdir, Hscan.
  destruct (RESUME_MAP !! normalize_key job_role) as [m|]; [|reflexivity].
  now rewrite (Hmap m eq_refl).
Qed.

Lemma select_resume_heuristic_first_match_witness :
  select_resume Sample.fs "Data Engineer" "resumes" (Some "resumes/default.pdf")
  = Some (Py.path_join "resumes" "data_engineer.pdf").
Proof.
  apply (select_resume_heuristic_first_match Sample.fs "Data Engineer" "resumes"
           (Some "resumes/default.pdf") ["Sahil_Bhanushali-M.pdf"]
           ["default.pdf"; "notes"] "data_engineer.pdf").
  - intros p Hp. vm_compute in Hp. discriminate.
  - reflexivity.
  - reflexivity.
  - reflexivity.
  - vm_compute. reflexivity.
  - intros f Hf _. apply elem_of_cons in Hf as [->|Hf]; [|inversion Hf].
    vm_compute. reflexivity.
Defined.

(** X6.  The cover letter is never found by a folder scan: what
    [select_cover_letter] returns is the mapped path or the default text
    file, and it is an existing file; the PDF flag is raised only for a
    mapped path whose name ends in [.pdf] in any letter case, and never for
    the default or for no cover letter. *)
Theorem select_cover_letter_result (fs : filesystem) (job_role : string) :
  let res := select_cover_letter fs job_role in
  (forall p, res.1 = Some p ->
     isfile fs p = true /\
     (COVER_LETTER_MAP !! normalize_key job_role = Some p
      \/ (p = CONFIG_default_cover_letter_txt /\ res.2 = false))) /\
  (res.2 = true ->
     exists p, res.1 = Some p /\
       COVER_LETTER_MAP !! normalize_key job_role = Some p /\
       Py.endswith (Py.lower p) ".pdf" = true) /\
  (res.1 = None ->
     res.2 = false /\ isfile fs CONFIG_default_cover_letter_txt = false /\
     forall p, COVER_LETTER_MAP !! normalize_key job_role = Some p -> isfile fs p = false).
Proof.
  unfold select_cover_letter.
  destruct (COVER_LETTER_MAP !! normalize_key job_role) as [m|] eqn:Hmap.
  - destruct (isfile fs m) eqn:Hm; simpl.
    + repeat split.
      * now injection H as <-.
      * left. congruence.
      * intros Hpdf. exists m. auto.
      * discriminate.
      * discriminate.
      * discriminate.
    + destruct (isfile fs CONFIG_default_cover_letter_txt) eqn:Hd; simpl.
      * repeat split; try discriminate.
        { now injection H as <-. }
        { right. now injection H as <-. }
      * repeat split; try discriminate. now intros p [= <-].
  - destruct (isfile fs CONFIG_default_cover_letter_txt) eqn:Hd; simpl.
    + repeat split; try discriminate.
      { now injection H as <-. }
      { right. now injection H as <-. }
    + repeat split; discriminate.
Qed.

(* ===================================================================== *)
(** ** More on email validation *)
(* ===================================================================== *)

(** X7.  An address that is empty or holds only blanks is rejected before
    the validator is consulted: the answer is [(False, None)] whatever the
    validator would say. *)
Theorem validate_email_address_blank (ev : EmailValidator) (address : string) :
  Py.strip address = "" ->
  validate_email_address ev address = (false, None).
Proof.
  intros Hblank. unfold validate_email_address. rewrite Hblank. simpl.
  now rewrite orb_true_r.
Qed.

Lemma validate_email_address_blank_witness :
  validate_email_address
    {| ev_syntax := fun a => Some a; ev_deliverability := fun _ => Deliverable |}
    "   " = (false, None).
Proof.
  apply (validate_email_address_blank
           {| ev_syntax := fun a => Some a; ev_deliverability := fun _ => Deliverable |}
           "   ").
  reflexivity.
Defined.

(** X8.  [validate_email_address] accepts an address, with the value [v],
    exactly when the address is not blank, the syntax check normalizes it to
    [v], and the deliverability check does not report it undeliverable; in
    every other case the answer is [(False, None)]. *)
Theorem validate_email_address_accepts_iff
    (ev : EmailValidator) (address v : string) :
  (validate_email_address ev address = (true, Some v) <->
   Py.strip address <> "" /\
   ev_syntax ev address = Some v /\
   ev_deliverability ev address <> Undeliverable) /\
  ((forall u, validate_email_address ev address <> (true, Some u)) ->
   validate_email_address ev address = (false, None)).
Proof.
  split.
  - unfold validate_email_address, validate_email.
    destruct (Py.truthy (Py.strip address)) eqn:Hne.
    + rewrite (truthy_strip_truthy _ Hne). simpl.
      assert (Hs : Py.strip address <> "")
        by (destruct (Py.strip address); [discriminate|congruence]).
      destruct (ev_syntax ev address) as [n|]; simpl.
      * destruct (ev_deliverability ev address) eqn:Hd; simpl.
        { split; [intros [= <-]; repeat split; auto; discriminate|].
          now intros (_ & [= <-] & _). }
        { split; [discriminate|]. intros (_ & _ & H). congruence. }
        { split; [intros [= <-]; repeat split; auto; discriminate|].
          now intros (_ & [= <-] & _). }
      * split; [discriminate|]. intros (_ & H & _). discriminate.
    + rewrite orb_true_r. split; [discriminate|]. intros (H & _).
      destruct (Py.strip address); [congruence|discriminate].
  - intros Hno. destruct (validate_email_address_shape ev address) as [[u Hu]|H];
      [|exact H]. now destruct (Hno u).
Qed.

(* ===================================================================== *)
(** ** More on transport and composition *)
(* ===================================================================== *)

(** X9.  [send_email] refuses to work without credentials: with an empty
    user name or an empty password it raises [RuntimeError] and leaves the
    world as it is, so no SMTP session is opened.  With both set it opens
    exactly one session, implicit SSL or STARTTLS as configured, and its
    outcome is the outcome of that session. *)
Theorem send_email_sessions (env : Env) (msg : Message) (conf : SmtpConf) (w : World) :
  (Py.truthy (conf_username conf) && Py.truthy (conf_password conf) = false ->
   exists m, send_email env msg conf w = (Raise (RuntimeError m), w)) /\
  (Py.truthy (conf_username conf) && Py.truthy (conf_password conf) = true ->
   let mode := if conf_use_ssl conf then ImplicitSSL else StartTLS in
   exists w',
     send_email env msg conf w =
       (match env_smtp env (smtp_calls w) mode msg with
        | None => Ok tt
        | Some e => Raise e
        end, w') /\
     smtp_calls w' = S (smtp_calls w) /\
     trace w' = trace w /\ sheet_writes w' = sheet_writes w).
Proof.
  unfold send_email. split.
  - destruct (Py.truthy (conf_username conf)); simpl.
    + intros ->. simpl. unfold raise. eauto.
    + intros _. unfold raise. eauto.
  - intros Hc. apply andb_true_iff in Hc as [-> ->]. simpl.
    unfold smtp_session.
    destruct (conf_use_ssl conf);
      destruct (env_smtp env (smtp_calls w) _ msg);
      eexists; repeat split.
Qed.

Lemma send_email_sessions_witness :
  exists m,
    send_email Sample.env_no_credentials
      {| msg_from := ""; msg_to := "hr@acme.example"; msg_subject := "";
         msg_text := ""; msg_html := ""; msg_related := []; msg_attachments := [] |}
      (smtp_conf Sample.env_no_credentials) world0
    = (Raise (RuntimeError m), world0).
Proof.
  apply (proj1 (send_email_sessions Sample.env_no_credentials
                  {| msg_from := ""; msg_to := "hr@acme.example"; msg_subject := "";
                     msg_text := ""; msg_html := ""; msg_related := [];
                     msg_attachments := [] |}
                  (smtp_conf Sample.env_no_credentials) world0)).
  reflexivity.
Defined.

Section InlineImages.
Variable env : Env.

(** The [for] loop over the inline images appends one part for each image
    that is a file, in order, and nothing for the others. *)
Lemma add_inline_images_parts images : forall acc parts,
  add_inline_images env images acc = Ok parts ->
  exists added,
    parts = (acc ++ added)%list /\
    Forall2 (fun part (image : string * string) =>
               part_label part = "<" ++ image.1 ++ ">" /\
               read_file (env_fs env) image.2 = Ok (part_data part))
            added
            (List.filter (fun image : string * string => isfile (env_fs env) image.2)
                         images).
Proof.
  induction images as [|[cid path] rest IH]; intros acc parts; simpl.
  - intros [= <-]. exists []. split; [now rewrite app_nil_r|constructor].
  - destruct (isfile (env_fs env) path) eqn:Hfile.
    + destruct (load_part env path "image/png" ("<" ++ cid ++ ">")) as [part|e] eqn:Hload;
        [|discriminate].
      intros Hrest. destruct (IH _ _ Hrest) as (added & -> & Hall).
      exists (part :: added). split; [now rewrite <- app_assoc|].
      constructor; [|exact Hall].
      unfold load_part in Hload. cbn [fst snd].
      destruct (read_file (env_fs env) path) as [data|] eqn:Hread; [|discriminate].
      destruct (content_type env path "image/png") as [[mt st]|]; [|discriminate].
      injection Hload as <-. split; reflexivity.
    + apply IH.
Qed.
End InlineImages.

Lemma string_prefix_app a b : String.prefix a (a ++ b) = true.
Proof.
  induction a as [|c a IH]; [now destruct b|].
  simpl. destruct (ascii_dec c c) as [_|Hne]; [exact IH|congruence].
Qed.

Section BuildMore.
Variable env : Env.
Variables (to_email : string) (to_name : option string) (job_role company : string).
Variables (resume_path : string) (cover_path : option string) (cover_is_pdf : bool).
Variables (sender_name sender_email where_found : string).

(** What a message that was composed looks like. *)
Lemma build_email_message_ok_inv (w : World) msg w' :
  build_email_message env to_email to_name job_role company resume_path
    cover_path cover_is_pdf sender_name sender_email where_found w = (Ok msg, w') ->
  exists greeting html related resume covers,
    msg = {| msg_from := sender_name ++ " <" ++ sender_email ++ ">";
             msg_to := to_email;
             msg_subject := "Application for " ++ job_role ++ " - " ++ sender_name;
             msg_text :=
               greeting ++ Py.nl ++ Py.nl ++
               "I'm reaching out about the " ++ job_role ++ " role at " ++ company ++
               ". I saw the opening on " ++ where_found ++ ". " ++
               "I've attached my resume and cover letter." ++ Py.nl ++ Py.nl ++
               "Thanks for your time," ++ Py.nl ++ sender_name;
             msg_html := html;
             msg_related := related;
             msg_attachments := resume :: covers |} /\
    (if opt_truthy to_name then greeting = "Hello " ++ or_else to_name "" ++ ","
     else greeting = "Hi," \/ greeting = "Hello,") /\
    add_inline_images env inline_images [] = Ok related /\
    match cover_path with
    | Some cp =>
        if Py.truthy cp
        then exists cover, covers = [cover] /\
               load_part env cp "application/octet-stream" (Py.basename cp) = Ok cover
        else covers = []
    | None => covers = []
    end.
Proof.
  unfold build_email_message.
  assert (Hgreet : forall g u,
            (if opt_truthy to_name then ret ("Hello " ++ or_else to_name "" ++ ",")
             else random_choice env ["Hi,"; "Hello,"]) w = (Ok g, u) ->
            if opt_truthy to_name then g = "Hello " ++ or_else to_name "" ++ ","
            else g = "Hi," \/ g = "Hello,").
  { intros g u. destruct (opt_truthy to_name).
    - now intros [= <- _].
    - unfold random_choice.
      change (length ["Hi,"; "Hello,"]) with 2%nat.
      remember (env_random env (rand_draws w) mod 2)%nat as k eqn:Hk.
      assert (Hlt : (k < 2)%nat) by (subst k; apply Nat.mod_upper_bound; lia).
      clear Hk. intros [= <- _].
      destruct k as [|[|k]]; [now left|now right|lia]. }
  destruct (greeting_ok env to_name w) as (g & w1 & Hg & _).
  specialize (Hgreet g w1 Hg).
  unfold bind at 1. rewrite Hg.
  destruct (render_html_template_result env job_role company to_name w1) as (w2 & _ & Hr).
  unfold bind at 1. rewrite Hr.
  destruct (read_file (env_fs env) "templates/email_template.html") as [html|e];
    [|discriminate].
  unfold bind at 1, lift_result at 1.
  destruct (add_inline_images env inline_images []) as [related|e] eqn:Himg;
    [|discriminate].
  destruct (negb (isfile (env_fs env) resume_path)); [discriminate|].
  unfold bind at 1, lift_result at 1.
  destruct (load_part env resume_path _ _) as [resume|e]; [|discriminate].
  destruct cover_path as [cp|].
  - destruct (Py.truthy cp).
    + unfold bind, lift_result, ret.
      destruct (load_part env cp _ _) as [cover|] eqn:Hcover; [|discriminate].
      intros [= <- <-]. do 5 eexists. split; [reflexivity|].
      split; [exact Hgreet|]. split; [reflexivity|]. eauto.
    + unfold bind, ret. intros [= <- <-]. do 5 eexists. split; [reflexivity|].
      split; [exact Hgreet|]. split; reflexivity.
  - unfold bind, ret. intros [= <- <-]. do 5 eexists. split; [reflexivity|].
    split; [exact Hgreet|]. split; reflexivity.
Qed.
End BuildMore.

Lemma load_part_inv env path default label part :
  load_part env path default label = Ok part ->
  part_label part = label /\ read_file (env_fs env) path = Ok (part_data part).
Proof.
  unfold load_part.
  destruct (read_file (env_fs env) path) as [data|]; [|discriminate].
  destruct (content_type env path default) as [[mt st]|]; [|discriminate].
  intros [= <-]. split; reflexivity.
Qed.

(** X10.  The headers of a composed message do not depend on files or on
    chance: the recipient is the address given, the subject is
    ["Application for <job role> - <sender name>"], the sender is
    ["<sender name> <<sender email>>"].  The plain-text body opens with
    ["Hello <name>,"] when a contact name is given, and with ["Hi,"] or
    ["Hello,"] otherwise. *)
Theorem composed_message_headers
    (env : Env) (to_email : string) (to_name : option string)
    (job_role company resume_path : string) (cover_path : option string)
    (cover_is_pdf : bool) (sender_name sender_email where_found : string)
    (w : World) (msg : Message) (w' : World) :
  build_email_message env to_email to_name job_role company resume_path
    cover_path cover_is_pdf sender_name sender_email where_found w = (Ok msg, w') ->
  msg_to msg = to_email /\
  msg_subject msg = "Application for " ++ job_role ++ " - " ++ sender_name /\
  msg_from msg = sender_name ++ " <" ++ sender_email ++ ">" /\
  (if opt_truthy to_name
   then String.prefix ("Hello " ++ or_else to_name "" ++ ",") (msg_text msg) = true
   else String.prefix "Hi," (msg_text msg) = true
        \/ String.prefix "Hello," (msg_text msg) = true).
Proof.
  intros Hb.
  destruct (build_email_message_ok_inv _ _ _ _ _ _ _ _ _ _ _ _ _ _ Hb)
    as (g & html & related & resume & covers & -> & Hg & _).
  repeat split. simpl msg_text.
  destruct (opt_truthy to_name).
  - rewrite Hg. apply string_prefix_app.
  - destruct Hg as [-> | ->]; [left|right]; apply string_prefix_app.
Qed.

Lemma composed_message_headers_witness :
  msg_subject
    (match (build_email_message Sample.env_accepting "hr@acme.example" (Some "Ann")
              "Backend Developer" "Acme" "resumes/default.pdf" None false
              "Sahil Bhanushali" "me@example.org" "LinkedIn" world0).1 with
     | Ok m => m
     | Raise _ =>
         {| msg_from := ""; msg_to := ""; msg_subject := ""; msg_text := "";
            msg_html := ""; msg_related := []; msg_attachments := [] |}
     end)
  = "Application for Backend Developer - Sahil Bhanushali".
Proof.
  destruct (build_email_message Sample.env_accepting "hr@acme.example" (Some "Ann")
              "Backend Developer" "Acme" "resumes/default.pdf" None false
              "Sahil Bhanushali" "me@example.org" "LinkedIn" world0)
    as [[m|e] w'] eqn:Hb; [|vm_compute in Hb; discriminate].
  exact (proj1 (proj2 (composed_message_headers _ _ _ _ _ _ _ _ _ _ _ _ _ _ Hb))).
Defined.

(** X11.  A composed message carries the resume and, exactly when a cover
    path is given and non-empty, the cover letter read from that path as the
    second attachment, whatever the PDF flag says; there is no other
    attachment. *)
Theorem composed_message_attachments
    (env : Env) (to_email : string) (to_name : option string)
    (job_role company resume_path : string) (cover_path : option string)
    (cover_is_pdf : bool) (sender_name sender_email where_found : string)
    (w : World) (msg : Message) (w' : World) :
  build_email_message env to_email to_name job_role company resume_path
    cover_path cover_is_pdf sender_name sender_email where_found w = (Ok msg, w') ->
  length (msg_attachments msg) = (if opt_truthy cover_path then 2 else 1)%nat /\
  (forall cp, cover_path = Some cp -> Py.truthy cp = true ->
     exists cover,
       msg_attachments msg !! 1%nat = Some cover /\
       part_label cover = Py.basename cp /\
       read_file (env_fs env) cp = Ok (part_data cover)) /\
  build_email_message env to_email to_name job_role company resume_path
    cover_path (negb cover_is_pdf) sender_name sender_email where_found w = (Ok msg, w').
Proof.
  intros Hb. split; [|split; [|exact Hb]];
    destruct (build_email_message_ok_inv _ _ _ _ _ _ _ _ _ _ _ _ _ _ Hb)
      as (g & html & related & resume & covers & -> & _ & _ & Hcov).
  - simpl. destruct cover_path as [cp|]; simpl.
    + destruct (Py.truthy cp).
      * now destruct Hcov as (cover & -> & _).
      * now rewrite Hcov.
    + now rewrite Hcov.
  - intros cp -> Hcp. rewrite Hcp in Hcov.
    destruct Hcov as (cover & -> & Hload). exists cover. split; [reflexivity|].
    now apply load_part_inv in Hload.
Qed.

(** X12.  The inline images of a composed message are exactly those of
    [image1.png], [image2.png], [image4.png] that are files, in this order,
    each under its content id and with the bytes of its file: an image that
    is missing is left out and composition goes on. *)
Theorem composed_message_inline_images
    (env : Env) (to_email : string) (to_name : option string)
    (job_role company resume_path : string) (cover_path : option string)
    (cover_is_pdf : bool) (sender_name sender_email where_found : string)
    (w : World) (msg : Message) (w' : World) :
  build_email_message env to_email to_name job_role company resume_path
    cover_path cover_is_pdf sender_name sender_email where_found w = (Ok msg, w') ->
  Forall2 (fun part (image : string * string) =>
             part_label part = "<" ++ image.1 ++ ">" /\
             read_file (env_fs env) image.2 = Ok (part_data part))
          (msg_related msg)
          (List.filter (fun image : string * string => isfile (env_fs env) image.2)
                       inline_images).
Proof.
  intros Hb.
  destruct (build_email_message_ok_inv _ _ _ _ _ _ _ _ _ _ _ _ _ _ Hb)
    as (g & html & related & resume & covers & -> & _ & Himg & _).
  destruct (add_inline_images_parts env _ _ _ Himg) as (added & -> & Hall).
  exact Hall.
Qed.

Lemma composed_message_attachments_witness :
  length (msg_attachments
            (Sample.message_of
               (build_email_message Sample.env_full "hr@acme.example" None
                  "QA Tester" "Acme" "resumes/default.pdf"
                  (Some "cover_letters/default_cover.txt") false
                  "Sahil Bhanushali" "me@example.org" "LinkedIn" world0)))
  = 2%nat.
Proof.
  unfold Sample.message_of.
  destruct (build_email_message Sample.env_full "hr@acme.example" None
              "QA Tester" "Acme" "resumes/default.pdf"
              (Some "cover_letters/default_cover.txt") false
              "Sahil Bhanushali" "me@example.org" "LinkedIn" world0)
    as [[m|e] w'] eqn:Hb; [|vm_compute in Hb; discriminate].
  exact (proj1 (composed_message_attachments _ _ _ _ _ _ _ _ _ _ _ _ _ _ Hb)).
Defined.

Lemma composed_message_inline_images_witness :
  Forall2 (fun part (image : string * string) =>
             part_label part = "<" ++ image.1 ++ ">" /\
             read_file Sample.fs_full image.2 = Ok (part_data part))
          (msg_related
             (Sample.message_of
                (build_email_message Sample.env_full "hr@acme.example" None
                   "QA Tester" "Acme" "resumes/default.pdf" None false
                   "Sahil Bhanushali" "me@example.org" "LinkedIn" world0)))
          [("image2", "image2.png")].
Proof.
  unfold Sample.message_of.
  destruct (build_email_message Sample.env_full "hr@acme.example" None
              "QA Tester" "Acme" "resumes/default.pdf" None false
              "Sahil Bhanushali" "me@example.org" "LinkedIn" world0)
    as [[m|e] w'] eqn:Hb; [|vm_compute in Hb; discriminate].
  exact (composed_message_inline_images _ _ _ _ _ _ _ _ _ _ _ _ _ _ Hb).
Defined.

(* ===================================================================== *)
(** ** The sheet store *)
(* ===================================================================== *)

Lemma sheet_values_line df i row :
  rows df !! i = Some row ->
  sheet_values df !! S i
  = Some (map (fun col => written_cell (row !! col)) (columns df)).
Proof.
  intros Hrow. unfold sheet_values. simpl.
  rewrite list_lookup_fmap, Hrow. reflexivity.
Qed.

Lemma sheet_values_full_write df :
  full_write (columns df) (length (rows df)) (EvWriteSheet (sheet_values df)).
Proof.
  simpl. eexists. split; [reflexivity|]. split; [now rewrite length_map|].
  apply Forall_forall. intros line Hin.
  apply list_elem_of_In, in_map_iff in Hin as (row & <- & _). now rewrite length_map.
Qed.

(** X13.  [write_dataframe_to_sheet] always sends the whole table in one
    update: the column labels first, then one line per row with one string
    per column, where a cell that is [None] or absent becomes the empty
    string.  The update is issued once whether it succeeds or not, and the
    call fails exactly when the update does. *)
Theorem write_dataframe_to_sheet_whole_table (env : Env) (df : DataFrame) (w : World) :
  exists r w',
    write_dataframe_to_sheet env df w = (r, w') /\
    trace w' = (trace w ++ [EvWriteSheet (sheet_values df)])%list /\
    sheet_writes w' = S (sheet_writes w) /\
    smtp_calls w' = smtp_calls w /\
    (r = Ok tt <-> env_sheet env (sheet_writes w) = None) /\
    sheet_values df !! 0%nat = Some (columns df) /\
    length (sheet_values df) = S (length (rows df)) /\
    (forall i row, rows df !! i = Some row ->
       sheet_values df !! S i
       = Some (map (fun col => written_cell (row !! col)) (columns df))) /\
    written_cell (Some CNone) = "" /\ written_cell None = "".
Proof.
  unfold write_dataframe_to_sheet, sheet_update.
  destruct (env_sheet env (sheet_writes w)) as [e|] eqn:Hsheet;
    do 2 eexists; (split; [reflexivity|]); simpl;
    (repeat split); try discriminate; try (now rewrite length_map);
    try (intros; now apply sheet_values_line).
Qed.

Section ReadFacts.

Lemma max_list_constant (n : nat) (l : list nat) :
  l <> [] -> Forall (fun x => x = n) l -> max_list l = n.
Proof.
  induction l as [|x l IH]; [congruence|]. intros _ Hall.
  apply Forall_cons in Hall as [-> Hall]. simpl.
  destruct l as [|y l]; [simpl; lia|].
  rewrite IH; [lia|discriminate|exact Hall].
Qed.

Lemma max_list_bound (l : list nat) x : x ∈ l -> (x <= max_list l)%nat.
Proof.
  induction l as [|y l IH]; [intros H; inversion H|].
  intros Hin. apply elem_of_cons in Hin as [->|Hin]; simpl; [lia|].
  specialize (IH Hin). lia.
Qed.

Lemma pad_row_length width cells :
  (length cells <= width)%nat -> length (pad_row width cells) = width.
Proof.
  intros H. unfold pad_row. rewrite length_app, length_map, length_replicate. lia.
Qed.

Lemma pad_row_full width cells :
  length cells = width -> pad_row width cells = map CStr cells.
Proof.
  intros <-. unfold pad_row. rewrite Nat.sub_diag. simpl. apply app_nil_r.
Qed.

Lemma row_of_lookup header cells j col c :
  NoDup header ->
  header !! j = Some col -> cells !! j = Some c ->
  row_of header cells !! col = Some c.
Proof.
  intros Hnd Hcol Hc. unfold row_of. apply elem_of_list_to_map_1'.
  - intros c' Hin. apply list_elem_of_lookup in Hin as [k Hk].
    apply lookup_zip_Some in Hk as [Hk1 Hk2].
    assert (k = j) as -> by (eapply NoDup_lookup; eauto). congruence.
  - apply list_elem_of_lookup. exists j. now apply lookup_zip_Some.
Qed.

Lemma row_of_lookup_None header cells col :
  col ∉ header -> row_of header cells !! col = None.
Proof.
  intros Hnot. unfold row_of. apply not_elem_of_list_to_map_1.
  intros Hin. apply Hnot. apply list_elem_of_fmap in Hin as ([c x] & -> & Hin).
  apply list_elem_of_lookup in Hin as [k Hk].
  apply lookup_zip_Some in Hk as [Hk _]. simpl.
  apply list_elem_of_lookup. eauto.
Qed.

Lemma row_of_is_Some header cells col :
  col ∈ header -> length cells = length header ->
  is_Some (row_of header cells !! col).
Proof.
  intros Hin Hlen.
  destruct (row_of header cells !! col) eqn:Hrow; [eauto|].
  unfold row_of in Hrow. apply not_elem_of_list_to_map in Hrow.
  rewrite fst_zip in Hrow by lia. contradiction.
Qed.
End ReadFacts.

Lemma pandas_DataFrame_rows data header df :
  pandas_DataFrame data header = Ok df ->
  columns df = header /\
  length (rows df) = length data /\
  Forall (fun row : gmap string cell =>
            forall col, col ∈ header -> is_Some (row !! col)) (rows df).
Proof.
  unfold pandas_DataFrame. destruct data as [|d data].
  - intros [= <-]. repeat split. constructor.
  - set (all := d :: data).
    destruct (max_list (map length all) =? length header)%nat eqn:Hw;
      [|discriminate].
    apply Nat.eqb_eq in Hw. intros Heq.
    assert (Hdf : df = {| columns := header;
                          rows := map (fun cells =>
                                         row_of header
                                           (pad_row (max_list (map length all)) cells))
                                      all |}) by congruence.
    rewrite Hdf. clear Heq Hdf. cbn [columns rows].
    split; [reflexivity|]. split; [apply List.length_map|].
    apply Forall_forall. intros row Hin col Hcol.
    apply list_elem_of_fmap in Hin as (cells & -> & Hcells).
    apply row_of_is_Some; [exact Hcol|].
    rewrite <- Hw. apply pad_row_length, max_list_bound.
    apply list_elem_of_fmap. eauto.
Qed.

(** X14.  [read_sheet_to_dataframe] passes an API error on, turns an empty
    answer into the empty frame, and otherwise takes the first line, with
    each label trimmed, as the header: the frame it returns has one row per
    further line, a Status column (added at the end if the header has none),
    and a Status cell in every row. *)
Theorem read_sheet_to_dataframe_status
    (response : result (list (list string))) :
  (forall e, response = Raise e -> read_sheet_to_dataframe response = Raise e) /\
  (response = Ok [] ->
   read_sheet_to_dataframe response = Ok {| columns := []; rows := [] |} /\
   df_empty {| columns := []; rows := [] |} = true) /\
  (forall first data df,
     response = Ok (first :: data) ->
     read_sheet_to_dataframe response = Ok df ->
     "Status" ∈ columns df /\
     (columns df = map Py.strip first
      \/ columns df = (map Py.strip first ++ ["Status"])%list) /\
     length (rows df) = length data /\
     Forall (fun row : gmap string cell => is_Some (row !! "Status")) (rows df)).
Proof.
  split; [now intros e ->|]. split; [now intros ->|].
  intros first data df -> Hread. simpl in Hread.
  destruct (pandas_DataFrame data (map Py.strip first)) as [df0|e] eqn:Hpd;
    [|discriminate].
  destruct (pandas_DataFrame_rows _ _ _ Hpd) as (Hcols & Hlen & Hrows).
  injection Hread as <-. unfold has_column.
  destruct (bool_decide ("Status" ∈ columns df0)) eqn:Hst; simpl.
  - apply bool_decide_eq_true in Hst. split; [exact Hst|].
    split; [now left|]. split; [exact Hlen|].
    eapply Forall_impl; [exact Hrows|]. intros row H. apply H. now rewrite <- Hcols.
  - split; [apply elem_of_app; right; left|].
    split; [right; now rewrite Hcols|].
    split; [cbn [rows add_column]; now rewrite List.length_map|].
    apply Forall_forall. intros row Hin.
    apply list_elem_of_fmap in Hin as (r0 & -> & _).
    rewrite lookup_insert_eq. eauto.
Qed.

Lemma row_rebuilt (cols : list string) (row : gmap string cell) :
  NoDup cols ->
  (forall col, (col ∈ cols -> exists s, row !! col = Some (CStr s))
               /\ (col ∉ cols -> row !! col = None)) ->
  row_of cols (map CStr (map (fun col => written_cell (row !! col)) cols)) = row.
Proof.
  intros Hnd Hrow. apply map_eq. intros col.
  destruct (decide (col ∈ cols)) as [Hin|Hnot].
  - destruct (proj1 (Hrow col) Hin) as [s Hs]. rewrite Hs.
    apply list_elem_of_lookup in Hin as [j Hj].
    apply (row_of_lookup cols _ j); [exact Hnd|exact Hj|].
    rewrite !list_lookup_fmap, Hj. simpl. now rewrite Hs.
  - rewrite (proj2 (Hrow col) Hnot). now apply row_of_lookup_None.
Qed.

(** X15.  Round trip.  For a frame with distinct, trimmed column labels, a
    Status column, and rows that hold a string under every label and nothing
    else, reading back exactly the values that [write_dataframe_to_sheet]
    sends gives the same frame, labels and cells. *)
Theorem write_then_read_round_trip (df : DataFrame) :
  sheet_shaped df ->
  read_sheet_to_dataframe (Ok (sheet_values df)) = Ok df.
Proof.
  destruct df as [cols rs]. intros (Hnd & Htrim & Hstatus & Hrows).
  simpl in Hnd, Htrim, Hstatus, Hrows.
  unfold sheet_values. cbn [columns rows read_sheet_to_dataframe].
  assert (Hheader : map Py.strip cols = cols).
  { clear -Htrim. induction cols as [|c cols IH]; [reflexivity|].
    apply Forall_cons in Htrim as [Hc Htrim]. simpl. now rewrite Hc, IH. }
  rewrite Hheader.
  set (lines := map (fun row : gmap string cell =>
                       map (fun col => written_cell (row !! col)) cols) rs).
  assert (Hpd : pandas_DataFrame lines cols = Ok {| columns := cols; rows := rs |}).
  { unfold pandas_DataFrame. destruct lines as [|l lines'] eqn:Hlines.
    - destruct rs; [reflexivity|discriminate].
    - rewrite <- Hlines.
      assert (Hwidth : max_list (map length lines) = length cols).
      { apply max_list_constant.
        - rewrite Hlines. discriminate.
        - apply Forall_forall. intros n Hn.
          apply list_elem_of_fmap in Hn as (line & -> & Hline).
          unfold lines in Hline.
          apply list_elem_of_fmap in Hline as (row & -> & _). apply List.length_map. }
      rewrite Hwidth, Nat.eqb_refl. do 2 f_equal.
      unfold lines. rewrite map_map.
      clear Hlines Hwidth. induction rs as [|row rs IH]; [reflexivity|].
      apply Forall_cons in Hrows as [Hrow Hrows]. simpl. f_equal.
      + rewrite pad_row_full by apply List.length_map.
        now apply row_rebuilt.
      + now apply IH. }
  rewrite Hpd. unfold has_column. simpl columns.
  now rewrite bool_decide_eq_true_2.
Qed.

Lemma write_then_read_round_trip_witness :
  read_sheet_to_dataframe (Ok (sheet_values (Sample.table [Sample.backend_row])))
  = Ok (Sample.table [Sample.backend_row]).
Proof.
  apply (write_then_read_round_trip (Sample.table [Sample.backend_row])).
  unfold sheet_shaped, Sample.table. cbn [columns rows].
  split; [|split; [|split]].
  - repeat (apply NoDup_cons; split;
            [intros Hin; repeat (apply elem_of_cons in Hin as [Hin|Hin];
                                 [discriminate|]); inversion Hin|]).
    apply NoDup_nil_2.
  - repeat (apply Forall_cons; split; [reflexivity|]). constructor.
  - do 3 right. left.
  - apply Forall_cons. split; [|constructor].
    intros col. unfold Sample.backend_row, Sample.contact. split.
    + intros Hin.
      repeat (apply elem_of_cons in Hin as [->|Hin];
              [eexists; simplify_map_eq; reflexivity|]).
      inversion Hin.
    + intros Hnot. rewrite !not_elem_of_cons in Hnot.
      destruct Hnot as (H1 & H2 & H3 & H4 & _).
      now rewrite !lookup_insert_ne, lookup_empty by congruence.
Defined.

(** X16.  A row whose Status cell is missing, which the frame holds as
    [None], is not treated as a row without status: its status reads
    ["None"], so the row is skipped by the gate and is neither sent nor
    changed.  A row whose Status is the empty string passes the gate. *)
Theorem missing_status_cell_is_skipped
    (env : Env) (df : DataFrame) (idx : nat) (row : gmap string cell)
    (keys : gset dedup_key) (w : World) :
  rows df !! idx = Some row ->
  row !! "Status" = Some CNone ->
  field row "Status" = "None" /\
  skipped_by_status row = true /\
  process_row env idx (df, keys) w = (Ok (df, keys), w) /\
  skipped_by_status (<["Status" := CStr ""]> row) = false.
Proof.
  intros Hrow Hnone.
  assert (Hfield : field row "Status" = "None").
  { unfold field, row_get. now rewrite Hnone. }
  assert (Hskip : skipped_by_status row = true).
  { unfold skipped_by_status. now rewrite Hfield. }
  split; [exact Hfield|]. split; [exact Hskip|]. split.
  - now apply process_row_gate with row.
  - unfold skipped_by_status. now rewrite field_status_marked.
Qed.

Lemma missing_status_cell_is_skipped_witness :
  skipped_by_status (row_of ["Email"; "Status"] (pad_row 2 ["hr@acme.example"])) = true.
Proof.
  refine (proj1 (proj2 (missing_status_cell_is_skipped Sample.env_accepting
            {| columns := ["Email"; "Status"];
               rows := [row_of ["Email"; "Status"] (pad_row 2 ["hr@acme.example"])] |}
            0 (row_of ["Email"; "Status"] (pad_row 2 ["hr@acme.example"]))
            ∅ world0 eq_refl _))).
  apply (row_of_lookup ["Email"; "Status"] _ 1).
  - repeat (apply NoDup_cons; split;
            [intros Hin; repeat (apply elem_of_cons in Hin as [Hin|Hin];
                                 [discriminate|]); inversion Hin|]).
    apply NoDup_nil_2.
  - reflexivity.
  - reflexivity.
Defined.
